(** * Electron distribution of a molecular system

    A shallow embedding of [gint/element.py] and [molsturm/System.py]:
    the static element table with its two lookups, the split of an
    electron count into alpha and beta electrons for a given
    multiplicity, the construction of a [System] and its in-place
    adjustment.

    Python integers are unbounded, so they are [Z]; [//] and [%] with the
    positive divisor [2] are [Z.div] and [Z.modulo] (both round towards
    minus infinity).  Functions that may raise return a [result]; the
    method that mutates [self] runs in a small state-and-exception
    monad, so that the state left behind by a raising call is visible. *)

From Stdlib Require Import ZArith String List Bool Lia DecimalString.
Import ListNotations.

Open Scope string_scope.
Open Scope Z_scope.

(** ** Values, exceptions and results *)

(** An atom identifier as the lookups distinguish it: [isinstance(atom, int)]
    or anything else, which is compared with the symbols (a string). *)
Inductive ident : Type :=
| IdInt (n : Z)
| IdStr (s : string).

(** The exceptions the two source files can raise. [ValueError] and
    [TypeError] carry their message, [KeyError] the key it was raised with. *)
Inductive exn : Type :=
| ValueError (msg : string)
| TypeError (msg : string)
| KeyError (key : ident)
| IndexError
| AssertionError.

Inductive result (A : Type) : Type :=
| Ok (a : A)
| Raise (e : exn).

Arguments Ok {A} a.
Arguments Raise {A} e.

Definition rbind {A B : Type} (r : result A) (k : A -> result B) : result B :=
  match r with
  | Ok a => k a
  | Raise e => Raise e
  end.

Declare Scope result_scope.
Delimit Scope result_scope with result.
Notation "'let?' x := r 'in' k" := (rbind r (fun x => k))
  (at level 10, x pattern, r at level 100, k at level 200) : result_scope.

(** [assert c] *)
Definition assert (c : bool) : result unit :=
  if c then Ok tt else Raise AssertionError.

(** [str(n)] for an integer: its decimal digits with a leading minus sign
    for negative numbers. *)
Definition str (n : Z) : string := NilZero.string_of_int (Z.to_int n).

(** [l[0]] *)
Definition index0 {A : Type} (l : list A) : result A :=
  match l with
  | x :: _ => Ok x
  | [] => Raise IndexError
  end.

(** Python's [LookupError] is the common base class of [IndexError] and
    [KeyError]. *)
Definition is_LookupError (e : exn) : bool :=
  match e with
  | KeyError _ | IndexError => true
  | _ => false
  end.

(** ** gint/element.py *)

Module element.

Record Element : Type := mkElement { atom_number : Z; symbol : string }.

Definition elems : list Element :=
  [ mkElement 1 "H";
    mkElement 2 "He";
    mkElement 3 "Li";
    mkElement 4 "Be";
    mkElement 5 "B";
    mkElement 6 "C";
    mkElement 7 "N";
    mkElement 8 "O";
    mkElement 9 "F";
    mkElement 10 "Ne";
    mkElement 11 "Na";
    mkElement 12 "Mg";
    mkElement 13 "Al";
    mkElement 14 "Si";
    mkElement 15 "P";
    mkElement 16 "S";
    mkElement 17 "Cl";
    mkElement 18 "Ar";
    mkElement 19 "K";
    mkElement 20 "Ca" ].

(** [[e for e in elems if e.atom_number == num][0]] *)
Definition by_atomic_number (num : Z) : result Element :=
  index0 (filter (fun e => atom_number e =? num) elems).

(** The [try] block of [find]. *)
Definition find_body (atom : ident) : result Element :=
  match atom with
  | IdInt n => index0 (filter (fun e => atom_number e =? n) elems)
  | IdStr s => index0 (filter (fun e => String.eqb (symbol e) s) elems)
  end.

(** [except IndexError: raise KeyError(atom)] *)
Definition find (atom : ident) : result Element :=
  match find_body atom with
  | Raise IndexError => Raise (KeyError atom)
  | r => r
  end.

End element.

(** ** molsturm/System.py *)

Module molsturm.

Import element.
Local Open Scope result_scope.

(** [[gint.element.find(at).atom_number for at in atoms]]: the first
    lookup that raises ends the comprehension. *)
Fixpoint to_atom_numbers (atoms : list ident) : result (list Z) :=
  match atoms with
  | [] => Ok []
  | a :: rest =>
      let? e := find a in
      let? ns := to_atom_numbers rest in
      Ok (atom_number e :: ns)
  end.

Definition msg_multiplicity_positive : string :=
  "The multiplicity needs to be a positive number.".

Definition msg_electrons_nonnegative : string :=
  "The electron count needs to be zero or larger.".

Definition msg_parity (n_electrons multiplicity : Z) : string :=
  "Only a system with an even number of electrons can " ++
  "have an odd multiplicity and vice versa. This system " ++
  "has " ++ str n_electrons ++ " electrons, but a " ++
  "multiplicity of " ++ str multiplicity ++ " is desired.".

Definition msg_too_large (n_electrons multiplicity : Z) : string :=
  "A system with " ++ str n_electrons ++ " electrons cannot " ++
  "have a multiplicity larger than " ++ str (n_electrons + 1) ++
  ". You requested a multiplicity of " ++ str multiplicity ++
  ", however.".

Definition distribute_electrons (n_electrons multiplicity : Z)
  : result (Z * Z) :=
  if multiplicity <=? 0 then Raise (ValueError msg_multiplicity_positive)
  else if n_electrons <? 0 then Raise (ValueError msg_electrons_nonnegative)
  else
    let spin_twice := multiplicity - 1 in
    if negb (spin_twice mod 2 =? n_electrons mod 2) then
      Raise (ValueError (msg_parity n_electrons multiplicity))
    else if spin_twice >? n_electrons then
      Raise (ValueError (msg_too_large n_electrons multiplicity))
    else
      let n_alpha := (n_electrons - spin_twice) / 2 + spin_twice in
      let n_beta := n_electrons - n_alpha in
      let? _ := assert ((n_alpha >=? 0) && (n_beta >=? 0)) in
      let? _ := assert (n_alpha - n_beta =? spin_twice) in
      Ok (n_alpha, n_beta).

(** *** class System *)

(** The [atoms] argument: a single identifier ([int] or [str]), a sequence
    ([list], [tuple] or array) of identifiers, or a value of another type. *)
Inductive atoms_arg : Type :=
| AtomsScalar (a : ident)
| AtomsSeq (l : list ident)
| AtomsOther.

(** The [electrons] argument: [None], an [int], a [tuple] or [list], or a
    value of another type. *)
Inductive electrons_arg : Type :=
| ElectronsNone
| ElectronsInt (n : Z)
| ElectronsSeq (l : list Z)
| ElectronsOther.

(** [arr.sum()] *)
Definition sum (l : list Z) : Z := fold_right Z.add 0 l.

(** [np.array(rows).shape] for a list of rows of numbers: two axes when
    all rows have the same length, a single axis (an array of objects)
    otherwise, on which [shape[1]] raises [IndexError].  Later NumPy
    versions raise in [np.array] itself for rows of unequal length; the
    properties below only rely on the construction raising in that case,
    not on which exception it is. *)
Definition shape (rows : list (list Z)) : list nat :=
  match rows with
  | [] => [0%nat]
  | r :: rest =>
      if forallb (fun r' => (length r' =? length r)%nat) rest
      then [length rows; length r]
      else [length rows]
  end.

(** [t[1]] on a tuple *)
Definition index1 {A : Type} (t : list A) : result A :=
  match nth_error t 1 with
  | Some x => Ok x
  | None => Raise IndexError
  end.

(** [a, b = seq] *)
Definition unpack2 (seq : list Z) : result (Z * Z) :=
  match seq with
  | [a; b] => Ok (a, b)
  | [] | [_] =>
      Raise (ValueError ("not enough values to unpack (expected 2, got " ++
                         str (Z.of_nat (length seq)) ++ ")"))
  | _ => Raise (ValueError "too many values to unpack (expected 2)")
  end.

Module System.

Record t : Type := mk {
  atom_numbers : list Z;
  coords : list (list Z);
  n_alpha : Z;
  n_beta : Z
}.

Definition n_atoms (self : t) : nat := length (atom_numbers self).

Definition multiplicity (self : t) : Z := n_alpha self - n_beta self + 1.

Definition is_closed_shell (self : t) : bool := n_alpha self =? n_beta self.

Definition n_electrons (self : t) : Z := n_alpha self + n_beta self.

Definition total_charge (self : t) : Z :=
  sum (atom_numbers self) - n_electrons self.

Definition charge (self : t) : Z := total_charge self.

Definition msg_coords_needed : string :=
  "coords needs to be specified if more than one atom is " ++
  "in the structure.".

Definition msg_lengths_disagree : string :=
  "Number of atoms and number of coordinates does not agree.".

Definition msg_three_items : string :=
  "The coords list needs to have exactly 3 items per " ++
  "coordinate.".

Definition msg_alpha_less_beta (n_alpha n_beta : Z) : string :=
  "molsturm assumes that n_alpha >= n_beta at many " ++
  "places. You instructed to construct a system with " ++
  "n_beta (== " ++ str n_beta ++ ") > n_alpha ( == " ++
  str n_alpha ++ "), which is not supported.".

(** The parts of [__init__], in the order of its statements.  First the
    normalisation of [atoms]. *)
Definition normalise_atoms (atoms : atoms_arg) : result (list ident) :=
  match atoms with
  | AtomsScalar a => Ok [a]
  | AtomsSeq l => Ok l
  | AtomsOther => Raise (TypeError "atoms needs to be a list or tuple")
  end.

(** [if len(atoms) > 0 and len(coords) == 0: ...] *)
Definition default_coords (atoms : list ident) (coords : list (list Z))
  : result (list (list Z)) :=
  if (0 <? length atoms)%nat && (length coords =? 0)%nat then
    if (length atoms =? 1)%nat then Ok [[0; 0; 0]]
    else Raise (ValueError msg_coords_needed)
  else Ok coords.

(** [if len(coords) > 0 and self.coords.shape[1] != 3: raise ...] *)
Definition check_shape (coords : list (list Z)) : result unit :=
  if (0 <? length coords)%nat then
    let? k := index1 (shape coords) in
    if negb (k =? 3)%nat then Raise (ValueError msg_three_items)
    else Ok tt
  else Ok tt.

(** The statements from [if isinstance(electrons, (tuple, list))] on. *)
Definition assign_electrons (atom_numbers : list Z) (coords : list (list Z))
    (electrons : electrons_arg) : result t :=
  match electrons with
  | ElectronsSeq l =>
      let? (n_alpha, n_beta) := unpack2 l in
      if n_alpha <? n_beta then
        Raise (ValueError (msg_alpha_less_beta n_alpha n_beta))
      else Ok (mk atom_numbers coords n_alpha n_beta)
  | _ =>
      let? electrons :=
        match electrons with
        | ElectronsNone => Ok (sum atom_numbers)
        | ElectronsInt n => Ok n
        | _ => Raise (TypeError "electrons needs to be a tuple, list or int")
        end in
      let n_beta := electrons / 2 in
      let n_alpha := electrons - n_beta in
      let self := mk atom_numbers coords n_alpha n_beta in
      let? _ := assert (((electrons mod 2 =? 0) && (multiplicity self =? 1))
                        || ((electrons mod 2 =? 1) && (multiplicity self =? 2))) in
      Ok self
  end.

(** [System(atoms, coords, electrons)]: the object [__init__] leaves behind,
    or the exception it raises (the object is then never returned). *)
Definition __init__ (atoms : atoms_arg) (coords : list (list Z))
    (electrons : electrons_arg) : result t :=
  let? atoms := normalise_atoms atoms in
  let? coords := default_coords atoms coords in
  if negb (length atoms =? length coords)%nat then
    Raise (ValueError msg_lengths_disagree)
  else
    let? atom_numbers := to_atom_numbers atoms in
    let? _ := check_shape coords in
    assign_electrons atom_numbers coords electrons.

(** **** Methods that mutate [self]

    A method body is a function from the object's state to its outcome
    (the value returned or the exception raised) and the state it leaves. *)

Definition M (A : Type) : Type := t -> result A * t.

Definition ret {A : Type} (a : A) : M A := fun self => (Ok a, self).

Definition raise {A : Type} (e : exn) : M A := fun self => (Raise e, self).

Definition bind {A B : Type} (m : M A) (k : A -> M B) : M B :=
  fun self =>
    match m self with
    | (Ok a, self') => k a self'
    | (Raise e, self') => (Raise e, self')
    end.

(** Reading an attribute or property of [self]. *)
Definition gets {A : Type} (f : t -> A) : M A := fun self => (Ok (f self), self).

(** The outcome of a call that does not touch [self]. *)
Definition call {A : Type} (r : result A) : M A := fun self => (r, self).

(** [self.n_alpha = v] and [self.n_beta = v] *)
Definition set_n_alpha (v : Z) : M unit :=
  fun self => (Ok tt, mk (atom_numbers self) (coords self) v (n_beta self)).

Definition set_n_beta (v : Z) : M unit :=
  fun self => (Ok tt, mk (atom_numbers self) (coords self) (n_alpha self) v).

(** [try: body except ValueError: handler]: other exceptions pass through,
    and whatever [body] assigned before raising stays assigned. *)
Definition try_except_ValueError {A : Type} (body handler : M A) : M A :=
  fun self =>
    match body self with
    | (Raise (ValueError _), self') => handler self'
    | outcome => outcome
    end.

Declare Scope method_scope.
Delimit Scope method_scope with method.
Notation "x <- m ;; k" := (bind m (fun x => k))
  (at level 61, m at next level, right associativity) : method_scope.
Notation "m ;; k" := (bind m (fun _ => k))
  (at level 61, right associativity) : method_scope.

Definition msg_charge_too_positive : string :=
  "Charge cannot be more positive than the " ++
  "total nuclear charge".

Definition msg_multiplicity_change : string :=
  "Changing the charge in the way requested would " ++
  "require a change in multiplicity as well.".

(** [self.n_alpha, self.n_beta = distribute_electrons(n, m)] *)
Definition assign_distribution (n_elec_count multiplicity : Z) : M unit :=
  (ab <- call (distribute_electrons n_elec_count multiplicity) ;;
   set_n_alpha (fst ab) ;;
   set_n_beta (snd ab))%method.

(** [adjust_electrons(self, charge, multiplicity, allow_multiplity_change)].
    The [try] block ends in [return]: its value [None] says that the method
    has returned, [Some m] carries the local variable [multiplicity] to the
    statements after the [if]. *)
Definition adjust_electrons (charge multiplicity : option Z)
    (allow_multiplity_change : bool) : M unit :=
  (n_elec_count <-
     match charge with
     | None => gets n_electrons
     | Some charge =>
         nuclear_charge <- gets (fun self => sum (atom_numbers self)) ;;
         let n_elec_count := nuclear_charge - charge in
         if n_elec_count <? 0 then raise (ValueError msg_charge_too_positive)
         else ret n_elec_count
     end ;;
   continue <-
     match multiplicity with
     | None =>
         try_except_ValueError
           (current <- gets System.multiplicity ;;
            assign_distribution n_elec_count current ;;
            ret None)
           (if negb allow_multiplity_change then
              raise (ValueError msg_multiplicity_change)
            else ret (Some (if n_elec_count mod 2 =? 0 then 1 else 2)))
     | Some m => ret (Some m)
     end ;;
   match continue with
   | None => ret tt
   | Some multiplicity => assign_distribution n_elec_count multiplicity
   end)%method.

End System.

End molsturm.

(** * Vocabulary of the statements *)

Import element molsturm.

(** An identifier matches a table entry when [find] compares them equal. *)
Definition matches (atom : ident) (e : Element) : bool :=
  match atom with
  | IdInt n => atom_number e =? n
  | IdStr s => String.eqb (symbol e) s
  end.

(** The kinds of failure the statements speak of. *)
Definition is_ValueError (e : exn) : bool :=
  match e with
  | ValueError _ => true
  | _ => false
  end.

(** Malformed constructor input: a [ValueError] or a [TypeError]. *)
Definition is_InvalidArgument (e : exn) : bool :=
  match e with
  | ValueError _ | TypeError _ => true
  | _ => false
  end.

Definition raises_ValueError {A : Type} (r : result A) : bool :=
  match r with
  | Raise e => is_ValueError e
  | Ok _ => false
  end.

Definition returns {A : Type} (r : result A) : bool :=
  match r with
  | Ok _ => true
  | Raise _ => false
  end.

(** The split [distribute_electrons] computes once its four guards are
    passed. *)
Definition split_alpha (n_electrons multiplicity : Z) : Z :=
  (n_electrons - (multiplicity - 1)) / 2 + (multiplicity - 1).

Definition split_beta (n_electrons multiplicity : Z) : Z :=
  n_electrons - split_alpha n_electrons multiplicity.

(** [self] with both electron counts replaced. *)
Definition with_electrons (n_alpha n_beta : Z) (self : System.t) : System.t :=
  System.mk (System.atom_numbers self) (System.coords self) n_alpha n_beta.

(** The adjustment as the specification words it, to be compared with
    [System.adjust_electrons].  The target electron count is the total
    nuclear charge minus the charge when a charge is given, the current
    electron count otherwise. *)
Definition spec_target_electrons (charge : option Z) (self : System.t) : Z :=
  match charge with
  | Some c => sum (System.atom_numbers self) - c
  | None => System.n_electrons self
  end.

(** "the default multiplicity (1 if target_electrons even, else 2)" *)
Definition spec_default_multiplicity (target_electrons : Z) : Z :=
  if Z.even target_electrons then 1 else 2.

(** "replace n_alpha/n_beta" with what [distribute] gives, or fail with
    its failure and leave the system alone. *)
Definition spec_redistribute (target_electrons multiplicity : Z)
    (self : System.t) : result unit * System.t :=
  match distribute_electrons target_electrons multiplicity with
  | Ok (n_alpha, n_beta) => (Ok tt, with_electrons n_alpha n_beta self)
  | Raise e => (Raise e, self)
  end.

Definition spec_adjust (charge multiplicity : option Z)
    (allow_multiplicity_change : bool) (self : System.t)
  : result unit * System.t :=
  let target_electrons := spec_target_electrons charge self in
  if match charge with
     | Some _ => target_electrons <? 0
     | None => false
     end
  then (Raise (ValueError System.msg_charge_too_positive), self)
  else
    match multiplicity with
    | Some m => spec_redistribute target_electrons m self
    | None =>
        if returns (distribute_electrons target_electrons
                      (System.multiplicity self))
        then spec_redistribute target_electrons (System.multiplicity self) self
        else if allow_multiplicity_change
        then spec_redistribute target_electrons
               (spec_default_multiplicity target_electrons) self
        else (Raise (ValueError System.msg_multiplicity_change), self)
    end.

(** What a call leaves behind: the untouched system when it raises, the
    system with both counts taken from one result of
    [distribute_electrons] when it returns. *)
Definition adjusted_or_untouched (self : System.t)
    (outcome : result unit * System.t) : Prop :=
  match outcome with
  | (Raise _, self') => self' = self
  | (Ok _, self') =>
      self' = with_electrons (System.n_alpha self') (System.n_beta self') self
      /\ exists n m,
           distribute_electrons n m
           = Ok (System.n_alpha self', System.n_beta self')
  end.

(** An identifier is known when some table entry matches it. *)
Definition known (atom : ident) : bool := existsb (matches atom) elems.

(** The target electron count of a call is admissible: a charge, when
    given, does not exceed the total nuclear charge. *)
Definition target_admissible (charge : option Z) (self : System.t) : bool :=
  match charge with
  | Some _ => 0 <=? spec_target_electrons charge self
  | None => true
  end.

(** The multiplicity a returning call of [adjust_electrons] distributes
    with. *)
Definition used_multiplicity (charge multiplicity : option Z)
    (self : System.t) : Z :=
  match multiplicity with
  | Some m => m
  | None =>
      if returns (distribute_electrons (spec_target_electrons charge self)
                    (System.multiplicity self))
      then System.multiplicity self
      else spec_default_multiplicity (spec_target_electrons charge self)
  end.

(** * Properties *)

(** ** distribute_electrons *)

Section Distribute.

Variables n_electrons multiplicity : Z.

(** The five ways through the function: one per [raise], and the return.
    Neither [assert] can fail. *)
Lemma distribute_electrons_cases :
  (multiplicity <= 0 /\
   distribute_electrons n_electrons multiplicity =
     Raise (ValueError msg_multiplicity_positive)) \/
  (0 < multiplicity /\ n_electrons < 0 /\
   distribute_electrons n_electrons multiplicity =
     Raise (ValueError msg_electrons_nonnegative)) \/
  (0 < multiplicity /\ 0 <= n_electrons /\
   (multiplicity - 1) mod 2 <> n_electrons mod 2 /\
   distribute_electrons n_electrons multiplicity =
     Raise (ValueError (msg_parity n_electrons multiplicity))) \/
  (0 < multiplicity /\ 0 <= n_electrons /\
   (multiplicity - 1) mod 2 = n_electrons mod 2 /\
   multiplicity - 1 > n_electrons /\
   distribute_electrons n_electrons multiplicity =
     Raise (ValueError (msg_too_large n_electrons multiplicity))) \/
  (0 < multiplicity /\ 0 <= n_electrons /\
   (multiplicity - 1) mod 2 = n_electrons mod 2 /\
   multiplicity - 1 <= n_electrons /\
   distribute_electrons n_electrons multiplicity =
     Ok (split_alpha n_electrons multiplicity,
         split_beta n_electrons multiplicity)).
Proof.
  unfold distribute_electrons, split_beta, split_alpha.
  destruct (Z.leb_spec multiplicity 0) as [Hm | Hm]; [now left | right].
  destruct (Z.ltb_spec n_electrons 0) as [Hn | Hn]; [now left | right].
  destruct (Z.eqb_spec ((multiplicity - 1) mod 2) (n_electrons mod 2))
    as [Hp | Hp]; cbn [negb]; [right | now left].
  rewrite Z.gtb_ltb.
  destruct (Z.ltb_spec n_electrons (multiplicity - 1)) as [Hs | Hs].
  - left. repeat split; trivial; lia.
  - right. repeat split; trivial.
    set (half := (n_electrons - (multiplicity - 1)) / 2).
    assert (Heven : n_electrons - (multiplicity - 1) = 2 * half).
    { unfold half. Z.div_mod_to_equations. lia. }
    assert (Hhalf : 0 <= half) by lia.
    replace (half + (multiplicity - 1) >=? 0) with true
      by (symmetry; rewrite Z.geb_leb; apply Z.leb_le; lia).
    replace (n_electrons - (half + (multiplicity - 1)) >=? 0) with true
      by (symmetry; rewrite Z.geb_leb; apply Z.leb_le; lia).
    replace (half + (multiplicity - 1) -
             (n_electrons - (half + (multiplicity - 1))) =? multiplicity - 1)
      with true by (symmetry; apply Z.eqb_eq; lia).
    reflexivity.
Qed.

Lemma split_sum :
  split_alpha n_electrons multiplicity + split_beta n_electrons multiplicity
  = n_electrons.
Proof. unfold split_beta. lia. Qed.

Lemma split_difference :
  (multiplicity - 1) mod 2 = n_electrons mod 2 ->
  split_alpha n_electrons multiplicity - split_beta n_electrons multiplicity
  = multiplicity - 1.
Proof.
  unfold split_beta, split_alpha. intros Hp.
  Z.div_mod_to_equations. lia.
Qed.

Lemma split_beta_nonneg :
  (multiplicity - 1) mod 2 = n_electrons mod 2 ->
  multiplicity - 1 <= n_electrons ->
  0 <= split_beta n_electrons multiplicity.
Proof.
  unfold split_beta, split_alpha. intros Hp Hs.
  Z.div_mod_to_equations. lia.
Qed.

End Distribute.

(** Destructs the five cases of a call, naming its equation [H]. *)
Ltac distribute_cases n m H :=
  destruct (distribute_electrons_cases n m)
    as [[? H] | [(? & ? & H) | [(? & ? & ? & H) |
         [(? & ? & ? & ? & H) | (? & ? & ? & ? & H)]]]].

Lemma distribute_electrons_raises_ValueError (n m : Z) (e : exn) :
  distribute_electrons n m = Raise e -> is_ValueError e = true.
Proof.
  distribute_cases n m H; rewrite H; intros E; inversion E; reflexivity.
Qed.

Lemma distribute_electrons_returns (n m a b : Z) :
  distribute_electrons n m = Ok (a, b) ->
  a = split_alpha n m /\ b = split_beta n m /\
  0 < m /\ 0 <= n /\ (m - 1) mod 2 = n mod 2 /\ m - 1 <= n.
Proof.
  distribute_cases n m H; rewrite H; intros E; inversion E; auto 10.
Qed.

(** C1: for n_electrons >= 0, multiplicity >= 1, multiplicity - 1 of the
    parity of n_electrons and multiplicity - 1 <= n_electrons, the call
    distribute_electrons(n_electrons, multiplicity) returns a pair
    (n_alpha, n_beta) with n_alpha + n_beta == n_electrons,
    n_alpha - n_beta == multiplicity - 1 and n_alpha >= n_beta >= 0. *)
Theorem distribute_electrons_valid (n_electrons multiplicity : Z) :
  n_electrons >= 0 -> multiplicity >= 1 ->
  (multiplicity - 1) mod 2 = n_electrons mod 2 ->
  multiplicity - 1 <= n_electrons ->
  exists n_alpha n_beta,
    distribute_electrons n_electrons multiplicity = Ok (n_alpha, n_beta) /\
    n_alpha + n_beta = n_electrons /\
    n_alpha - n_beta = multiplicity - 1 /\
    n_alpha >= n_beta /\ n_beta >= 0.
Proof.
  intros Hn Hm Hp Hs.
  exists (split_alpha n_electrons multiplicity),
         (split_beta n_electrons multiplicity).
  pose proof (split_sum n_electrons multiplicity) as Hsum.
  pose proof (split_difference n_electrons multiplicity Hp) as Hdiff.
  pose proof (split_beta_nonneg n_electrons multiplicity Hp Hs) as Hbeta.
  distribute_cases n_electrons multiplicity H; try lia; try contradiction.
  rewrite H. repeat split; lia.
Qed.

Lemma distribute_electrons_valid_witness :
  exists n_alpha n_beta,
    distribute_electrons 5 4 = Ok (n_alpha, n_beta) /\
    n_alpha + n_beta = 5 /\ n_alpha - n_beta = 4 - 1 /\
    n_alpha >= n_beta /\ n_beta >= 0.
Proof.
  apply (distribute_electrons_valid 5 4); [lia | lia | reflexivity | lia].
Defined.

(** C2: distribute_electrons(n_electrons, multiplicity) raises its
    ValueError exactly when multiplicity <= 0, or n_electrons < 0, or
    multiplicity - 1 and n_electrons differ in parity, or
    multiplicity - 1 > n_electrons; it raises nothing else, and what it
    returns adds up to n_electrons and differs by multiplicity - 1, so no
    input is clamped. Multiplicity 0, electron count -1, (4, 2) and (2, 5)
    all raise. *)
Theorem distribute_electrons_fails_iff (n_electrons multiplicity : Z) :
  (raises_ValueError (distribute_electrons n_electrons multiplicity) = true
   <->
   (multiplicity <= 0 \/ n_electrons < 0 \/
    (multiplicity - 1) mod 2 <> n_electrons mod 2 \/
    multiplicity - 1 > n_electrons)) /\
  match distribute_electrons n_electrons multiplicity with
  | Raise e => is_ValueError e = true
  | Ok (n_alpha, n_beta) =>
      n_alpha + n_beta = n_electrons /\ n_alpha - n_beta = multiplicity - 1
  end /\
  raises_ValueError (distribute_electrons n_electrons 0) = true /\
  raises_ValueError (distribute_electrons (-1) multiplicity) = true /\
  distribute_electrons 4 2 = Raise (ValueError (msg_parity 4 2)) /\
  distribute_electrons 2 5 = Raise (ValueError (msg_too_large 2 5)).
Proof.
  split; [| split; [| split; [| split; [| split]]]].
  - distribute_cases n_electrons multiplicity H; rewrite H; cbn;
      split; intros; try discriminate; try lia; auto.
  - distribute_cases n_electrons multiplicity H; rewrite H; cbn; trivial.
    split; [apply split_sum | now apply split_difference].
  - distribute_cases n_electrons 0 H; rewrite H; cbn; trivial; lia.
  - distribute_cases (-1) multiplicity H; rewrite H; cbn; trivial; lia.
  - reflexivity.
  - reflexivity.
Qed.

(** ** adjust_electrons *)

Lemma assign_distribution_redistribute (n m : Z) (self : System.t) :
  System.assign_distribution n m self = spec_redistribute n m self.
Proof.
  unfold System.assign_distribution, spec_redistribute, System.bind,
    System.call.
  destruct (distribute_electrons n m) as [[a b] | e]; reflexivity.
Qed.

Lemma default_multiplicity_even (n : Z) :
  (if n mod 2 =? 0 then 1 else 2) = spec_default_multiplicity n.
Proof.
  unfold spec_default_multiplicity.
  rewrite Zeven_mod, Zmod_even.
  destruct (Z.even n); reflexivity.
Qed.

(** The [ValueError] of [adjust_electrons] itself is none of those
    [distribute_electrons] raises. *)
Lemma msg_multiplicity_change_distinct (n m : Z) :
  distribute_electrons n m <> Raise (ValueError System.msg_multiplicity_change).
Proof.
  distribute_cases n m H; rewrite H; discriminate.
Qed.

(** The method computes what the specification's wording of it computes. *)
Lemma adjust_electrons_spec_adjust (charge multiplicity : option Z)
    (allow_multiplity_change : bool) (self : System.t) :
  System.adjust_electrons charge multiplicity allow_multiplity_change self
  = spec_adjust charge multiplicity allow_multiplity_change self.
Proof.
  assert (Hrest : forall n,
    System.bind
      (match multiplicity with
       | None =>
           System.try_except_ValueError
             (System.bind (System.gets System.multiplicity) (fun current =>
                System.bind (System.assign_distribution n current) (fun _ =>
                  System.ret None)))
             (if negb allow_multiplity_change then
                System.raise (ValueError System.msg_multiplicity_change)
              else System.ret (Some (if n mod 2 =? 0 then 1 else 2)))
       | Some m => System.ret (Some m)
       end)
      (fun continue =>
         match continue with
         | None => System.ret tt
         | Some m => System.assign_distribution n m
         end) self
    = match multiplicity with
      | Some m => spec_redistribute n m self
      | None =>
          if returns (distribute_electrons n (System.multiplicity self))
          then spec_redistribute n (System.multiplicity self) self
          else if allow_multiplity_change
          then spec_redistribute n (spec_default_multiplicity n) self
          else (Raise (ValueError System.msg_multiplicity_change), self)
      end).
  { intros n. destruct multiplicity as [m |].
    - unfold System.bind, System.ret.
      apply assign_distribution_redistribute.
    - rewrite default_multiplicity_even.
      unfold System.bind at 1, System.try_except_ValueError,
        System.bind at 1, System.gets, System.bind at 1.
      rewrite assign_distribution_redistribute.
      unfold spec_redistribute at 1.
      pose proof (distribute_electrons_raises_ValueError n
                    (System.multiplicity self)) as Hraise.
      destruct (distribute_electrons n (System.multiplicity self))
        as [[a b] | e] eqn:Hcurrent; cbn [returns].
      + unfold spec_redistribute. rewrite Hcurrent. reflexivity.
      + specialize (Hraise e eq_refl). destruct e; try discriminate.
        destruct allow_multiplity_change; cbn [negb].
        * unfold System.ret. apply assign_distribution_redistribute.
        * reflexivity. }
  unfold System.adjust_electrons, spec_adjust, spec_target_electrons.
  destruct charge as [c |].
  - unfold System.bind at 1, System.bind at 1, System.gets.
    destruct (sum (System.atom_numbers self) - c <? 0); [reflexivity |].
    unfold System.ret at 1. apply Hrest.
  - unfold System.bind at 1, System.gets. apply Hrest.
Qed.

(** C4: adjust_electrons aims at the total nuclear charge minus the charge
    when a charge is given (raising when that is negative) and at the
    current electron count otherwise; with the multiplicity omitted it
    first tries the current multiplicity and, when that fails, either
    raises an error of its own (allow_multiplity_change false), which no
    call of distribute_electrons raises, or redistributes with
    multiplicity 1 for an even and 2 for an odd target. *)
Theorem adjust_electrons_refines_spec (charge multiplicity : option Z)
    (allow_multiplity_change : bool) (self : System.t) :
  System.adjust_electrons charge multiplicity allow_multiplity_change self
  = spec_adjust charge multiplicity allow_multiplity_change self
  /\ (forall n m,
        distribute_electrons n m
        <> Raise (ValueError System.msg_multiplicity_change))
  /\ System.msg_multiplicity_change <> System.msg_charge_too_positive.
Proof.
  split; [apply adjust_electrons_spec_adjust |].
  split; [exact msg_multiplicity_change_distinct | discriminate].
Qed.

Lemma spec_redistribute_outcome (n m : Z) (self : System.t) :
  adjusted_or_untouched self (spec_redistribute n m self).
Proof.
  unfold spec_redistribute.
  destruct (distribute_electrons n m) as [[a b] | e] eqn:Hd; cbn.
  - split; [reflexivity | now exists n, m].
  - reflexivity.
Qed.

(** C5: adjust_electrons is atomic. Whenever it raises (negative target
    electron count, a failure of distribute_electrons, or the disallowed
    change of multiplicity) the system is exactly as before the call; when
    it returns, atom numbers and coordinates are unchanged and n_alpha and
    n_beta are together the pair one call of distribute_electrons
    returned. *)
Theorem adjust_electrons_atomic (charge multiplicity : option Z)
    (allow_multiplity_change : bool) (self : System.t) :
  match
    System.adjust_electrons charge multiplicity allow_multiplity_change self
  with
  | (Raise _, self') => self' = self
  | (Ok _, self') =>
      self' = with_electrons (System.n_alpha self') (System.n_beta self') self
      /\ exists n m,
           distribute_electrons n m
           = Ok (System.n_alpha self', System.n_beta self')
  end.
Proof.
  change (adjusted_or_untouched self
    (System.adjust_electrons charge multiplicity allow_multiplity_change self)).
  rewrite adjust_electrons_spec_adjust. unfold spec_adjust.
  destruct (match charge with
            | Some _ => spec_target_electrons charge self <? 0
            | None => false
            end); [reflexivity |].
  destruct multiplicity as [m |]; [apply spec_redistribute_outcome |].
  destruct (returns _); [apply spec_redistribute_outcome |].
  destruct allow_multiplity_change;
    [apply spec_redistribute_outcome | reflexivity].
Qed.

Lemma split_of_current (self : System.t) :
  split_alpha (System.n_electrons self) (System.multiplicity self)
  = System.n_alpha self /\
  split_beta (System.n_electrons self) (System.multiplicity self)
  = System.n_beta self.
Proof.
  unfold split_beta, split_alpha, System.n_electrons, System.multiplicity.
  destruct self as [nums cs a b]; cbn.
  replace (a + b - (a - b + 1 - 1)) with (b * 2) by lia.
  rewrite Z.div_mul by discriminate. lia.
Qed.

Lemma distribute_electrons_current (self : System.t) :
  System.n_alpha self >= System.n_beta self -> System.n_beta self >= 0 ->
  distribute_electrons (System.n_electrons self) (System.multiplicity self)
  = Ok (System.n_alpha self, System.n_beta self).
Proof.
  intros Hab Hb.
  destruct (split_of_current self) as [Ha Hb'].
  distribute_cases (System.n_electrons self) (System.multiplicity self) H;
    unfold System.n_electrons, System.multiplicity in *.
  1, 2, 4: lia.
  - exfalso.
    replace (System.n_alpha self - System.n_beta self + 1 - 1)
      with (System.n_alpha self + System.n_beta self
            + (- System.n_beta self) * 2) in * by lia.
    rewrite Z.mod_add in * by discriminate. congruence.
  - rewrite H. unfold System.n_electrons, System.multiplicity in Ha, Hb'.
    now rewrite Ha, Hb'.
Qed.

(** C9: on a system with n_alpha >= n_beta >= 0, adjust_electrons with
    charge and multiplicity omitted returns and leaves the system as it
    is, whatever allow_multiplity_change is: distribute_electrons, given
    the current electron count and multiplicity, returns the current
    split. *)
Theorem adjust_electrons_identity (allow_multiplity_change : bool)
    (self : System.t) :
  System.n_alpha self >= System.n_beta self -> System.n_beta self >= 0 ->
  distribute_electrons (System.n_electrons self) (System.multiplicity self)
  = Ok (System.n_alpha self, System.n_beta self) /\
  System.adjust_electrons None None allow_multiplity_change self
  = (Ok tt, self).
Proof.
  intros Hab Hb.
  pose proof (distribute_electrons_current self Hab Hb) as Hcurrent.
  split; [exact Hcurrent |].
  rewrite adjust_electrons_spec_adjust.
  unfold spec_adjust, spec_redistribute, spec_target_electrons.
  rewrite Hcurrent. cbn [returns].
  destruct self; reflexivity.
Qed.

Lemma adjust_electrons_identity_witness :
  let self := System.mk [8] [[0; 0; 0]] 5 3 in
  distribute_electrons (System.n_electrons self) (System.multiplicity self)
  = Ok (System.n_alpha self, System.n_beta self) /\
  System.adjust_electrons None None true self = (Ok tt, self).
Proof.
  intros self.
  apply (adjust_electrons_identity true self); cbn; lia.
Defined.

Lemma distribute_electrons_default (target_electrons : Z) :
  target_electrons >= 0 ->
  returns (distribute_electrons target_electrons
             (if target_electrons mod 2 =? 0 then 1 else 2)) = true.
Proof.
  intros Ht.
  destruct (Z.eqb_spec (target_electrons mod 2) 0) as [He | Ho].
  - distribute_cases target_electrons 1 H; rewrite H; cbn; trivial;
      try lia.
    change ((1 - 1) mod 2) with 0 in *. congruence.
  - assert (Hodd : target_electrons mod 2 = 1).
    { pose proof (Z.mod_pos_bound target_electrons 2). lia. }
    distribute_cases target_electrons 2 H; rewrite H; cbn; trivial;
      try lia.
    + change ((2 - 1) mod 2) with 1 in *. congruence.
    + assert (target_electrons = 0) by lia. subst. discriminate.
Qed.

(** C10: for every target electron count >= 0 the fallback call
    distribute_electrons(target, 1 if target % 2 == 0 else 2) returns, so
    adjust_electrons with the multiplicity omitted and
    allow_multiplity_change true returns whenever its target electron
    count (nuclear charge minus charge, or the current count) is >= 0. *)
Theorem fallback_never_raises (target_electrons : Z) :
  target_electrons >= 0 ->
  returns (distribute_electrons target_electrons
             (if target_electrons mod 2 =? 0 then 1 else 2)) = true /\
  forall charge self,
    spec_target_electrons charge self = target_electrons ->
    fst (System.adjust_electrons charge None true self) = Ok tt.
Proof.
  intros Ht.
  pose proof (distribute_electrons_default target_electrons Ht) as Hdefault.
  split; [exact Hdefault |].
  intros charge self Htarget.
  rewrite adjust_electrons_spec_adjust. unfold spec_adjust.
  rewrite Htarget.
  replace (match charge with
           | Some _ => target_electrons <? 0
           | None => false
           end) with false
    by (destruct charge; trivial; symmetry; apply Z.ltb_ge; lia).
  rewrite default_multiplicity_even in Hdefault.
  unfold spec_redistribute.
  destruct (distribute_electrons target_electrons (System.multiplicity self))
    as [[a b] | e]; cbn [returns]; [reflexivity |].
  destruct (distribute_electrons target_electrons
              (spec_default_multiplicity target_electrons)) as [[a b] | e'];
    [reflexivity | discriminate].
Qed.

Lemma fallback_never_raises_witness :
  returns (distribute_electrons 7 (if 7 mod 2 =? 0 then 1 else 2)) = true /\
  fst (System.adjust_electrons (Some 1) None true
         (System.mk [8] [[0; 0; 0]] 4 4)) = Ok tt.
Proof.
  destruct (fallback_never_raises 7) as [Hreturns Hadjust]; [lia |].
  split; [exact Hreturns |].
  apply Hadjust. reflexivity.
Defined.

(** ** The element table *)

Lemma index0_filter {A : Type} (p : A -> bool) (l : list A) :
  if existsb p l
  then exists x, index0 (filter p l) = Ok x /\ In x l /\ p x = true
  else index0 (filter p l) = Raise IndexError.
Proof.
  induction l as [| y l IH]; cbn; [reflexivity |].
  destruct (p y) eqn:Hy; cbn.
  - exists y. auto.
  - destruct (existsb p l); [| exact IH].
    destruct IH as (x & Hx & Hin & Hp). exists x. auto.
Qed.

Lemma find_body_filter (atom : ident) :
  find_body atom = index0 (filter (matches atom) elems).
Proof. destruct atom; reflexivity. Qed.

Lemma find_cases (atom : ident) :
  if existsb (matches atom) elems
  then exists e, find atom = Ok e /\ In e elems /\ matches atom e = true
  else find atom = Raise (KeyError atom).
Proof.
  unfold find. rewrite find_body_filter.
  pose proof (index0_filter (matches atom) elems) as H.
  destruct (existsb (matches atom) elems).
  - destruct H as (e & He & Hin & Hm). rewrite He. exists e. auto.
  - rewrite H. reflexivity.
Qed.

Lemma atom_number_in_table (n : Z) :
  existsb (fun e => atom_number e =? n) elems = (1 <=? n) && (n <=? 20).
Proof.
  unfold elems. cbn [existsb atom_number].
  destruct (Z.leb_spec 1 n) as [Hlo | Hlo];
    destruct (Z.leb_spec n 20) as [Hhi | Hhi]; cbn [andb].
  - assert (Hn : In n [1; 2; 3; 4; 5; 6; 7; 8; 9; 10;
                       11; 12; 13; 14; 15; 16; 17; 18; 19; 20]).
    { cbn [In]. lia. }
    cbn [In] in Hn.
    repeat (destruct Hn as [<- | Hn]; [reflexivity |]).
    contradiction.
  - repeat (rewrite (proj2 (Z.eqb_neq _ n)) by lia). reflexivity.
  - repeat (rewrite (proj2 (Z.eqb_neq _ n)) by lia). reflexivity.
  - lia.
Qed.

(** C7: find("He") and find(2) return the same table entry; find of an
    identifier that matches no entry raises KeyError with that
    identifier; by_atomic_number(n) returns the entry whose atom number
    is n and raises the lookup error IndexError when there is none,
    which is exactly when n is not one of 1, ..., 20, the atom numbers
    of the table. *)
Theorem element_lookup :
  find (IdStr "He") = Ok (mkElement 2 "He") /\
  find (IdInt 2) = find (IdStr "He") /\
  find (IdStr "Xx") = Raise (KeyError (IdStr "Xx")) /\
  (forall atom,
     if existsb (matches atom) elems
     then exists e, find atom = Ok e /\ In e elems /\ matches atom e = true
     else find atom = Raise (KeyError atom) /\
          is_LookupError (KeyError atom) = true) /\
  (forall n,
     if existsb (fun e => atom_number e =? n) elems
     then exists e,
            by_atomic_number n = Ok e /\ In e elems /\ atom_number e = n
     else by_atomic_number n = Raise IndexError /\
          is_LookupError IndexError = true) /\
  map atom_number elems =
    [1; 2; 3; 4; 5; 6; 7; 8; 9; 10; 11; 12; 13; 14; 15; 16; 17; 18; 19; 20] /\
  (forall n,
     existsb (fun e => atom_number e =? n) elems = (1 <=? n) && (n <=? 20)).
Proof.
  repeat split; try reflexivity.
  - intros atom. pose proof (find_cases atom) as H.
    destruct (existsb (matches atom) elems); [exact H | now split].
  - intros n. unfold by_atomic_number.
    pose proof (index0_filter (fun e => atom_number e =? n) elems) as H.
    destruct (existsb (fun e => atom_number e =? n) elems); [| now split].
    destruct H as (e & He & Hin & Hn). exists e.
    apply Z.eqb_eq in Hn. auto.
  - exact atom_number_in_table.
Qed.

(** ** Construction *)

Lemma to_atom_numbers_length (l : list ident) (nums : list Z) :
  to_atom_numbers l = Ok nums -> length nums = length l.
Proof.
  revert nums. induction l as [| a l IH]; cbn; intros nums H.
  - inversion H. reflexivity.
  - destruct (find a) as [e | x]; cbn in H; [| discriminate].
    destruct (to_atom_numbers l) as [ns | x]; cbn in H; [| discriminate].
    inversion H. cbn. f_equal. now apply IH.
Qed.

Lemma shape_uniform (cs : list (list Z)) (k : nat) :
  index1 (shape cs) = Ok k -> Forall (fun c => length c = k) cs.
Proof.
  destruct cs as [| r rest]; cbn; [discriminate |].
  destruct (forallb (fun r' => (length r' =? length r)%nat) rest) eqn:Hall;
    cbn; [| discriminate].
  intros H. inversion H. subst k. constructor; [reflexivity |].
  apply Forall_forall. intros c Hc.
  rewrite forallb_forall in Hall. apply Nat.eqb_eq. now apply Hall.
Qed.

Lemma shape_of_uniform (cs : list (list Z)) (k : nat) :
  cs <> [] -> Forall (fun c => length c = k) cs -> index1 (shape cs) = Ok k.
Proof.
  destruct cs as [| r rest]; [congruence |]. intros _ H.
  inversion H as [| ? ? Hr Hrest]; subst. cbn.
  replace (forallb (fun r' => (length r' =? length r)%nat) rest) with true.
  - reflexivity.
  - symmetry. apply forallb_forall. intros c Hc. apply Nat.eqb_eq.
    rewrite Forall_forall in Hrest. now apply Hrest.
Qed.

Lemma default_coords_returns (l : list ident) (coords cs : list (list Z)) :
  System.default_coords l coords = Ok cs ->
  cs = coords \/ (coords = [] /\ cs = [[0; 0; 0]]).
Proof.
  unfold System.default_coords.
  destruct ((0 <? length l)%nat && (length coords =? 0)%nat) eqn:Hc.
  - apply andb_prop in Hc. destruct Hc as [_ Hc].
    apply Nat.eqb_eq in Hc. apply length_zero_iff_nil in Hc.
    destruct (length l =? 1)%nat; [| discriminate].
    intros H. inversion H. auto.
  - intros H. inversion H. auto.
Qed.

Lemma check_shape_returns (cs : list (list Z)) (r : unit) :
  System.check_shape cs = Ok r -> Forall (fun c => length c = 3%nat) cs.
Proof.
  unfold System.check_shape.
  destruct cs as [| c cs0]; [constructor |].
  cbn [length Nat.ltb Nat.leb].
  destruct (index1 (shape (c :: cs0))) as [k |] eqn:Hk; cbn [rbind];
    [| discriminate].
  destruct (k =? 3)%nat eqn:Hk3; cbn [negb]; [| discriminate].
  apply Nat.eqb_eq in Hk3. subst k. intros _. now apply shape_uniform.
Qed.

Lemma check_shape_of_three (cs : list (list Z)) :
  Forall (fun c => length c = 3%nat) cs -> System.check_shape cs = Ok tt.
Proof.
  unfold System.check_shape. intros H.
  destruct cs as [| c cs0]; [reflexivity |].
  cbn [length Nat.ltb Nat.leb].
  rewrite (shape_of_uniform (c :: cs0) 3) by (trivial; discriminate).
  reflexivity.
Qed.

Lemma init_scalar (a : ident) (coords : list (list Z))
    (electrons : electrons_arg) :
  System.__init__ (AtomsScalar a) coords electrons
  = System.__init__ (AtomsSeq [a]) coords electrons.
Proof. reflexivity. Qed.

(** The electron counts a construction stores, by kind of [electrons]. *)
Lemma init_seq_returns (l : list ident) (coords : list (list Z))
    (electrons : electrons_arg) (self : System.t) :
  System.__init__ (AtomsSeq l) coords electrons = Ok self ->
  to_atom_numbers l = Ok (System.atom_numbers self) /\
  length l = length (System.coords self) /\
  (System.coords self = coords \/
   (coords = [] /\ System.coords self = [[0; 0; 0]])) /\
  Forall (fun c => length c = 3%nat) (System.coords self) /\
  match electrons with
  | ElectronsSeq s =>
      s = [System.n_alpha self; System.n_beta self] /\
      System.n_alpha self >= System.n_beta self
  | ElectronsInt n =>
      System.n_beta self = n / 2 /\ System.n_alpha self = n - n / 2
  | ElectronsNone =>
      System.n_beta self = sum (System.atom_numbers self) / 2 /\
      System.n_alpha self
      = sum (System.atom_numbers self) - sum (System.atom_numbers self) / 2
  | ElectronsOther => False
  end.
Proof.
  unfold System.__init__. cbn [System.normalise_atoms rbind].
  destruct (System.default_coords l coords) as [cs | x] eqn:Hcs;
    cbn [rbind]; [| discriminate].
  apply default_coords_returns in Hcs.
  destruct (length l =? length cs)%nat eqn:Hlen; cbn [negb]; [| discriminate].
  apply Nat.eqb_eq in Hlen.
  destruct (to_atom_numbers l) as [nums | x]; cbn [rbind]; [| discriminate].
  destruct (System.check_shape cs) as [r | x] eqn:Hshape; cbn [rbind];
    [| discriminate].
  apply check_shape_returns in Hshape.
  unfold System.assign_electrons.
  destruct electrons as [| n | s |]; cbn [rbind].
  - unfold assert.
    destruct (_ || _); cbn [rbind]; [| discriminate].
    intros H. inversion H. cbn. auto 10.
  - unfold assert.
    destruct (_ || _); cbn [rbind]; [| discriminate].
    intros H. inversion H. cbn. auto 10.
  - destruct s as [| a [| b [| c s]]]; cbn [unpack2 rbind]; try discriminate.
    destruct (Z.ltb_spec a b) as [Hlt | Hge]; [discriminate |].
    intros H. inversion H. cbn. repeat split; auto; lia.
  - discriminate.
Qed.

(** The [assert] that ends [__init__] holds for every integer. *)
Lemma default_split_multiplicity (electrons : Z) :
  (electrons mod 2 =? 0) && (electrons - electrons / 2 - electrons / 2 + 1 =? 1)
  || (electrons mod 2 =? 1) && (electrons - electrons / 2 - electrons / 2 + 1 =? 2)
  = true.
Proof.
  assert (H : electrons mod 2 = 0 \/ electrons mod 2 = 1).
  { pose proof (Z.mod_pos_bound electrons 2). lia. }
  assert (Hd : electrons = 2 * (electrons / 2) + electrons mod 2).
  { apply Z.div_mod. discriminate. }
  destruct H as [H | H]; rewrite H in *; cbn [Z.eqb andb orb].
  - replace (electrons - electrons / 2 - electrons / 2 + 1 =? 1) with true
      by (symmetry; apply Z.eqb_eq; lia).
    reflexivity.
  - replace (electrons - electrons / 2 - electrons / 2 + 1 =? 2) with true
      by (symmetry; apply Z.eqb_eq; lia).
    reflexivity.
Qed.

Lemma assign_electrons_total (nums : list Z) (cs : list (list Z))
    (electrons : electrons_arg) (total : Z) :
  match electrons with
  | ElectronsNone => total = sum nums
  | ElectronsInt n => total = n
  | _ => False
  end ->
  System.assign_electrons nums cs electrons
  = Ok (System.mk nums cs (total - total / 2) (total / 2)).
Proof.
  intros H. unfold System.assign_electrons.
  destruct electrons; try contradiction; subst total; cbn [rbind];
    unfold System.multiplicity; cbn [System.n_alpha System.n_beta];
    rewrite default_split_multiplicity; reflexivity.
Qed.

(** Construction with atoms that are all in the table, one coordinate of
    three components per atom and no [electrons] returns. *)
Lemma init_neutral_returns (l : list ident) (nums : list Z)
    (cs : list (list Z)) :
  to_atom_numbers l = Ok nums -> length cs = length l ->
  Forall (fun c => length c = 3%nat) cs ->
  System.__init__ (AtomsSeq l) cs ElectronsNone
  = Ok (System.mk nums cs (sum nums - sum nums / 2) (sum nums / 2)).
Proof.
  intros Hnums Hlen Hthree.
  unfold System.__init__. cbn [System.normalise_atoms rbind].
  unfold System.default_coords.
  replace ((0 <? length l)%nat && (length cs =? 0)%nat) with false.
  - cbn [rbind]. rewrite Hlen, Nat.eqb_refl. cbn [negb].
    rewrite Hnums. cbn [rbind].
    rewrite check_shape_of_three by assumption. cbn [rbind].
    now apply assign_electrons_total.
  - symmetry. rewrite Hlen.
    destruct (length l); [reflexivity | apply andb_false_r].
Qed.

(** Every construction that returns was one from a list of atoms. *)
Lemma init_returns_seq (atoms : atoms_arg) (coords : list (list Z))
    (electrons : electrons_arg) (self : System.t) :
  System.__init__ atoms coords electrons = Ok self ->
  exists l, System.__init__ (AtomsSeq l) coords electrons = Ok self.
Proof.
  destruct atoms as [a | l |]; intros H;
    [now exists [a] | now exists l | discriminate].
Qed.

(** What holds after every construction that returns. *)
Lemma init_invariants (atoms : atoms_arg) (coords : list (list Z))
    (electrons : electrons_arg) (self : System.t) :
  System.__init__ atoms coords electrons = Ok self ->
  System.n_alpha self >= System.n_beta self /\
  length (System.atom_numbers self) = length (System.coords self).
Proof.
  intros H. apply init_returns_seq in H. destruct H as [l Hl].
  destruct (init_seq_returns l coords electrons self Hl)
    as (Hnums & Hlen & _ & _ & Helec).
  split.
  - destruct electrons as [| n | s |].
    + destruct Helec as [Hb Ha]. rewrite Ha, Hb.
      Z.div_mod_to_equations. lia.
    + destruct Helec as [Hb Ha]. rewrite Ha, Hb.
      Z.div_mod_to_equations. lia.
    + tauto.
    + contradiction.
  - rewrite (to_atom_numbers_length l _ Hnums). exact Hlen.
Qed.

(** What holds after every adjustment that returns. *)
Lemma adjust_electrons_invariants (charge multiplicity : option Z)
    (allow_multiplity_change : bool) (self self' : System.t) :
  System.adjust_electrons charge multiplicity allow_multiplity_change self
  = (Ok tt, self') ->
  System.n_alpha self' >= System.n_beta self' /\ System.n_beta self' >= 0 /\
  System.atom_numbers self' = System.atom_numbers self /\
  System.coords self' = System.coords self.
Proof.
  intros H.
  assert (Hout : adjusted_or_untouched self (Ok tt, self')).
  { rewrite <- H. rewrite adjust_electrons_spec_adjust. unfold spec_adjust.
    destruct (match charge with
              | Some _ => spec_target_electrons charge self <? 0
              | None => false
              end); [reflexivity |].
    destruct multiplicity as [m |]; [apply spec_redistribute_outcome |].
    destruct (returns _); [apply spec_redistribute_outcome |].
    destruct allow_multiplity_change;
      [apply spec_redistribute_outcome | reflexivity]. }
  destruct Hout as [Hself (n & m & Hd)].
  apply distribute_electrons_returns in Hd.
  destruct Hd as (Ha & Hb & Hm & Hn & Hp & Hs).
  pose proof (split_difference n m Hp) as Hdiff.
  pose proof (split_beta_nonneg n m Hp Hs) as Hbeta.
  rewrite Hself. cbn. repeat split; lia.
Qed.

(** A pair with fewer alpha than beta electrons is refused. *)
Lemma init_pair_refused (atoms : atoms_arg) (coords : list (list Z))
    (n_alpha n_beta : Z) :
  n_alpha < n_beta ->
  returns (System.__init__ atoms coords (ElectronsSeq [n_alpha; n_beta]))
  = false.
Proof.
  intros Hlt.
  destruct (System.__init__ atoms coords (ElectronsSeq [n_alpha; n_beta]))
    as [self |] eqn:H; [| reflexivity].
  apply init_returns_seq in H. destruct H as [l Hl].
  destruct (init_seq_returns l coords _ self Hl) as (_ & _ & _ & _ & Hs & Hge).
  inversion Hs. lia.
Qed.

(** C3: a construction that returns need not leave n_beta >= 0. The
    constructor returns a system with n_beta = -1 for
    electrons = (1, -1), and one with n_alpha = n_beta = -1 for
    electrons = -2; distribute_electrons, and with it adjust_electrons,
    refuses the electron count -2 that the constructor accepts. *)
Theorem init_negative_beta :
  System.__init__ (AtomsSeq []) [] (ElectronsSeq [1; -1])
  = Ok (System.mk [] [] 1 (-1)) /\
  System.n_beta (System.mk [] [] 1 (-1)) < 0 /\
  System.__init__ (AtomsSeq []) [] (ElectronsInt (-2))
  = Ok (System.mk [] [] (-1) (-1)) /\
  raises_ValueError (distribute_electrons (-2) 1) = true.
Proof. repeat split. Qed.

(** C6: a construction without electrons that returns has as many
    electrons as the atom numbers add up to, n_beta = total // 2 and
    n_alpha = total - n_beta, hence total charge 0 and multiplicity 1 for
    an even and 2 for an odd total; it returns whenever the atoms are in
    the table and every atom has a coordinate of three components.
    atoms = ["H"] gives n_alpha = 1, n_beta = 0, multiplicity 2 and charge
    0; atoms = ["O"] gives atom number 8, n_alpha = n_beta = 4,
    multiplicity 1 and a closed shell. *)
Theorem init_default_electrons :
  (forall atoms coords self,
     System.__init__ atoms coords ElectronsNone = Ok self ->
     let total := sum (System.atom_numbers self) in
     System.n_electrons self = total /\
     System.n_beta self = total / 2 /\
     System.n_alpha self = total - System.n_beta self /\
     System.total_charge self = 0 /\
     System.multiplicity self = (if Z.even total then 1 else 2)) /\
  (forall l nums cs,
     to_atom_numbers l = Ok nums -> length cs = length l ->
     Forall (fun c => length c = 3%nat) cs ->
     System.__init__ (AtomsSeq l) cs ElectronsNone
     = Ok (System.mk nums cs (sum nums - sum nums / 2) (sum nums / 2))) /\
  (let hydrogen := System.mk [1] [[0; 0; 0]] 1 0 in
   System.__init__ (AtomsSeq [IdStr "H"]) [] ElectronsNone = Ok hydrogen /\
   System.multiplicity hydrogen = 2 /\ System.total_charge hydrogen = 0) /\
  (let oxygen := System.mk [8] [[0; 0; 0]] 4 4 in
   System.__init__ (AtomsSeq [IdStr "O"]) [] ElectronsNone = Ok oxygen /\
   System.multiplicity oxygen = 1 /\ System.is_closed_shell oxygen = true).
Proof.
  split; [| split; [exact init_neutral_returns | repeat split]].
  intros atoms coords self H total.
  apply init_returns_seq in H. destruct H as [l Hl].
  destruct (init_seq_returns l coords _ self Hl) as (_ & _ & _ & _ & Hb & Ha).
  fold total in Hb, Ha.
  unfold System.total_charge, System.n_electrons, System.multiplicity.
  fold total. rewrite Ha, Hb.
  repeat split; try lia.
  rewrite Zeven_mod.
  destruct (Z.eqb_spec (total mod 2) 0) as [He | Ho].
  - Z.div_mod_to_equations. lia.
  - Z.div_mod_to_equations. lia.
Qed.

Lemma init_default_electrons_witness :
  System.n_electrons (System.mk [1] [[0; 0; 0]] 1 0) = 1 /\
  System.n_beta (System.mk [1] [[0; 0; 0]] 1 0) = 0.
Proof.
  destruct (proj1 init_default_electrons (AtomsSeq [IdStr "H"]) []
              (System.mk [1] [[0; 0; 0]] 1 0) eq_refl)
    as (Hn & Hb & _).
  split; [exact Hn | exact Hb].
Defined.

(** ** Coordinates at construction *)

Lemma init_one_atom_default (a : ident) (electrons : electrons_arg) :
  System.__init__ (AtomsSeq [a]) [] electrons
  = System.__init__ (AtomsSeq [a]) [[0; 0; 0]] electrons.
Proof. reflexivity. Qed.

Lemma init_many_atoms_no_coords (a b : ident) (l : list ident)
    (electrons : electrons_arg) :
  System.__init__ (AtomsSeq (a :: b :: l)) [] electrons
  = Raise (ValueError System.msg_coords_needed).
Proof. reflexivity. Qed.

Lemma init_lengths_disagree (l : list ident) (coords : list (list Z))
    (electrons : electrons_arg) :
  length l <> length coords -> ~ (length l = 1%nat /\ coords = []) ->
  raises_ValueError (System.__init__ (AtomsSeq l) coords electrons) = true.
Proof.
  intros Hlen Hdefault.
  unfold System.__init__. cbn [System.normalise_atoms rbind].
  unfold System.default_coords.
  destruct coords as [| c cs].
  - destruct l as [| a [| b l]]; cbn [length] in *.
    + congruence.
    + exfalso. apply Hdefault. auto.
    + reflexivity.
  - change (length (c :: cs) =? 0)%nat with false.
    rewrite andb_false_r. cbn [rbind].
    destruct (Nat.eqb_spec (length l) (length (c :: cs)));
      [contradiction | reflexivity].
Qed.

Lemma init_refuses_short_coordinate (atoms : atoms_arg)
    (coords : list (list Z)) (electrons : electrons_arg) :
  Exists (fun c => length c <> 3%nat) coords ->
  returns (System.__init__ atoms coords electrons) = false.
Proof.
  intros Hex.
  destruct (System.__init__ atoms coords electrons) as [self |] eqn:H;
    [| reflexivity].
  apply init_returns_seq in H. destruct H as [l Hl].
  destruct (init_seq_returns l coords _ self Hl)
    as (_ & _ & Hcoords & Hthree & _).
  apply Exists_exists in Hex. destruct Hex as (c & Hin & Hc).
  destruct Hcoords as [Hsame | [Hnil _]].
  - rewrite Hsame in Hthree. rewrite Forall_forall in Hthree.
    exfalso. apply Hc. now apply Hthree.
  - subst coords. contradiction.
Qed.

Lemma init_three_items_error (l : list ident) (coords : list (list Z))
    (electrons : electrons_arg) :
  Exists (fun c => length c <> 3%nat) coords ->
  returns (to_atom_numbers l) = true ->
  (forall c c', In c coords -> In c' coords -> length c = length c') ->
  raises_ValueError (System.__init__ (AtomsSeq l) coords electrons) = true.
Proof.
  intros Hex Hatoms Huniform.
  unfold System.__init__. cbn [System.normalise_atoms rbind].
  unfold System.default_coords.
  destruct coords as [| c cs]; [inversion Hex |].
  change (length (c :: cs) =? 0)%nat with false.
  rewrite andb_false_r. cbn [rbind].
  destruct (length l =? length (c :: cs))%nat; cbn [negb]; [| reflexivity].
  destruct (to_atom_numbers l) as [nums |]; [| discriminate].
  cbn [rbind]. unfold System.check_shape.
  change (0 <? length (c :: cs))%nat with true. cbv iota.
  rewrite (shape_of_uniform (c :: cs) (length c)).
  - cbn [rbind].
    apply Exists_exists in Hex. destruct Hex as (c0 & Hin & Hc0).
    rewrite (Huniform c0 c Hin (or_introl eq_refl)) in Hc0.
    apply Nat.eqb_neq in Hc0. rewrite Hc0. reflexivity.
  - discriminate.
  - apply Forall_forall. intros c' Hin.
    apply Huniform; [exact Hin | now left].
Qed.

(** C8, as the code has it: with one atom and no coordinates the
    construction is the one with coords = [[0, 0, 0]]; with more than one
    atom and no coordinates it raises ValueError; it raises ValueError
    whenever the numbers of atoms and of coordinates differ, the case of
    one atom without coordinates apart; it never returns when a
    coordinate has not exactly 3 components, and then raises ValueError
    provided that all atoms are in the table and all coordinates have the
    same number of components. *)
Theorem init_coords_handling (l : list ident) (coords : list (list Z))
    (electrons : electrons_arg) :
  (length l = 1%nat ->
   System.__init__ (AtomsSeq l) [] electrons
   = System.__init__ (AtomsSeq l) [[0; 0; 0]] electrons) /\
  (length l > 1 ->
   System.__init__ (AtomsSeq l) [] electrons
   = Raise (ValueError System.msg_coords_needed))%nat /\
  (length l <> length coords -> ~ (length l = 1%nat /\ coords = []) ->
   raises_ValueError (System.__init__ (AtomsSeq l) coords electrons) = true) /\
  (Exists (fun c => length c <> 3%nat) coords ->
   (forall atoms,
      returns (System.__init__ atoms coords electrons) = false) /\
   (returns (to_atom_numbers l) = true ->
    (forall c c', In c coords -> In c' coords -> length c = length c') ->
    raises_ValueError (System.__init__ (AtomsSeq l) coords electrons) = true)).
Proof.
  split; [| split; [| split; [| split]]].
  - destruct l as [| a [| b l]]; cbn [length]; try discriminate.
    intros _. apply init_one_atom_default.
  - destruct l as [| a [| b l]]; cbn [length]; try lia.
    intros _. apply init_many_atoms_no_coords.
  - apply init_lengths_disagree.
  - intros atoms. now apply init_refuses_short_coordinate.
  - now apply init_three_items_error.
Qed.

Lemma init_coords_handling_witness :
  returns (System.__init__ (AtomsSeq [IdStr "H"; IdInt 1])
             [[0; 0]; [0; 1]] ElectronsNone) = false /\
  raises_ValueError (System.__init__ (AtomsSeq [IdStr "H"; IdInt 1])
                       [[0; 0]; [0; 1]] ElectronsNone) = true.
Proof.
  destruct (init_coords_handling [IdStr "H"; IdInt 1] [[0; 0]; [0; 1]]
              ElectronsNone) as (_ & _ & _ & Hshort).
  destruct Hshort as [Hreturns Hraises].
  - apply Exists_cons_hd. cbn. lia.
  - split.
    + apply Hreturns.
    + apply Hraises; [reflexivity |].
      intros c c' [<- | [<- | []]] [<- | [<- | []]]; reflexivity.
Defined.

(** C8, the kind of error: with an atom that is not in the table and a
    coordinate of two components the construction raises KeyError, which
    is neither a ValueError nor a TypeError. *)
Lemma init_coords_error_kind_counterexample :
  Exists (fun c => length c <> 3%nat) [[0; 0]] /\
  System.__init__ (AtomsSeq [IdStr "Xx"]) [[0; 0]] ElectronsNone
  = Raise (KeyError (IdStr "Xx")) /\
  is_InvalidArgument (KeyError (IdStr "Xx")) = false.
Proof.
  split; [| split; reflexivity].
  apply Exists_cons_hd. cbn. lia.
Qed.

(** * Further properties *)

(** ** The element table and its lookups *)

Lemma elems_range : Forall (fun e => 1 <= atom_number e <= 20) elems.
Proof. unfold elems. repeat constructor; cbn [atom_number]; lia. Qed.

Lemma find_symbol_entry (e : Element) :
  In e elems -> find (IdStr (symbol e)) = Ok e.
Proof.
  unfold elems. cbn [In]. intros H.
  repeat (destruct H as [<- | H]; [reflexivity |]).
  contradiction.
Qed.

Lemma find_number_entry (e : Element) :
  In e elems -> find (IdInt (atom_number e)) = Ok e.
Proof.
  unfold elems. cbn [In]. intros H.
  repeat (destruct H as [<- | H]; [reflexivity |]).
  contradiction.
Qed.

Lemma find_returns (atom : ident) (e : Element) :
  find atom = Ok e -> In e elems /\ matches atom e = true.
Proof.
  intros H. pose proof (find_cases atom) as Hc.
  destruct (existsb (matches atom) elems).
  - destruct Hc as (e' & He' & Hin & Hm). rewrite H in He'.
    inversion He'. subst. auto.
  - rewrite H in Hc. discriminate.
Qed.

Lemma find_raises (atom : ident) (x : exn) :
  find atom = Raise x -> x = KeyError atom /\ known atom = false.
Proof.
  intros H. pose proof (find_cases atom) as Hc. unfold known.
  destruct (existsb (matches atom) elems).
  - destruct Hc as (e' & He' & _). rewrite H in He'. discriminate.
  - rewrite H in Hc. inversion Hc. auto.
Qed.

(** X1: every entry of the table is found again by its symbol and by its
    atom number, through find and through by_atomic_number: no two
    entries share a symbol or an atom number. *)
Theorem table_round_trip (e : Element) :
  In e elems ->
  find (IdStr (symbol e)) = Ok e /\ find (IdInt (atom_number e)) = Ok e /\
  by_atomic_number (atom_number e) = Ok e.
Proof.
  intros H. split; [now apply find_symbol_entry |].
  pose proof (find_number_entry e H) as Hnumber.
  split; [exact Hnumber |].
  unfold find, find_body in Hnumber. unfold by_atomic_number.
  destruct (index0 (filter (fun e' => atom_number e' =? atom_number e) elems))
    as [e' | x]; [exact Hnumber |].
  destruct x; discriminate.
Qed.

Lemma table_round_trip_witness :
  find (IdStr "C") = Ok (mkElement 6 "C") /\
  find (IdInt 6) = Ok (mkElement 6 "C") /\
  by_atomic_number 6 = Ok (mkElement 6 "C").
Proof.
  apply (table_round_trip (mkElement 6 "C")).
  unfold elems. cbn [In]. do 5 right. left. reflexivity.
Defined.

(** X2: on an integer, find and by_atomic_number return the same element
    whenever one of them returns, and that element has the atom number
    asked for; when there is none, find raises KeyError with the number
    and by_atomic_number raises IndexError. *)
Theorem find_int_by_atomic_number (n : Z) :
  match by_atomic_number n with
  | Ok e => find (IdInt n) = Ok e /\ atom_number e = n
  | Raise x =>
      x = IndexError /\ find (IdInt n) = Raise (KeyError (IdInt n))
  end.
Proof.
  unfold find, find_body, by_atomic_number.
  pose proof (index0_filter (fun e => atom_number e =? n) elems) as H.
  destruct (existsb (fun e => atom_number e =? n) elems).
  - destruct H as (e & He & _ & Hn). rewrite He.
    apply Z.eqb_eq in Hn. auto.
  - rewrite H. auto.
Qed.

(** ** to_atom_numbers *)

Lemma to_atom_numbers_cons (a : ident) (l : list ident) :
  to_atom_numbers (a :: l)
  = rbind (find a) (fun e =>
      rbind (to_atom_numbers l) (fun ns => Ok (atom_number e :: ns))).
Proof. reflexivity. Qed.

(** X3: when to_atom_numbers returns, it returns one number per
    identifier, in order the atom number of the entry find gives for that
    identifier, and every number lies between 1 and 20. *)
Theorem to_atom_numbers_returns (l : list ident) (nums : list Z) :
  to_atom_numbers l = Ok nums ->
  length nums = length l /\
  Forall (fun n => 1 <= n <= 20) nums /\
  Forall2 (fun a n => exists e, find a = Ok e /\ atom_number e = n) l nums.
Proof.
  revert nums. induction l as [| a l IH]; intros nums H.
  - inversion H. repeat split; constructor.
  - rewrite to_atom_numbers_cons in H.
    destruct (find a) as [e | x] eqn:He; cbn [rbind] in H; [| discriminate].
    destruct (to_atom_numbers l) as [ns | x]; cbn [rbind] in H;
      [| discriminate].
    inversion H. subst nums. clear H.
    destruct (IH ns eq_refl) as (Hlen & Hrange & Hall).
    apply find_returns in He as Hin. destruct Hin as [Hin _].
    pose proof elems_range as Hr. rewrite Forall_forall in Hr.
    repeat split.
    + cbn [length]. now f_equal.
    + constructor; [now apply Hr | exact Hrange].
    + constructor; [now exists e | exact Hall].
Qed.

Lemma to_atom_numbers_returns_witness :
  length [1; 8; 1] = length [IdStr "H"; IdInt 8; IdStr "H"] /\
  Forall (fun n => 1 <= n <= 20) [1; 8; 1] /\
  Forall2 (fun a n => exists e, find a = Ok e /\ atom_number e = n)
    [IdStr "H"; IdInt 8; IdStr "H"] [1; 8; 1].
Proof.
  apply (to_atom_numbers_returns [IdStr "H"; IdInt 8; IdStr "H"] [1; 8; 1]).
  reflexivity.
Defined.

(** X4: given the symbols of table entries, or their atom numbers,
    to_atom_numbers returns the atom numbers of those entries; atom
    numbers passed as identifiers come back unchanged. *)
Theorem to_atom_numbers_of_entries (es : list Element) :
  Forall (fun e => In e elems) es ->
  to_atom_numbers (map (fun e => IdStr (symbol e)) es)
  = Ok (map atom_number es) /\
  to_atom_numbers (map IdInt (map atom_number es)) = Ok (map atom_number es).
Proof.
  induction es as [| e es IH]; intros H.
  - split; reflexivity.
  - inversion H as [| ? ? He Hes]; subst.
    destruct (IH Hes) as [IHs IHn].
    split; cbn [map]; rewrite to_atom_numbers_cons.
    + rewrite (find_symbol_entry e He). cbn [rbind].
      rewrite IHs. reflexivity.
    + rewrite (find_number_entry e He). cbn [rbind].
      rewrite IHn. reflexivity.
Qed.

Lemma to_atom_numbers_of_entries_witness :
  to_atom_numbers [IdStr "O"; IdStr "H"] = Ok [8; 1] /\
  to_atom_numbers [IdInt 8; IdInt 1] = Ok [8; 1].
Proof.
  apply (to_atom_numbers_of_entries [mkElement 8 "O"; mkElement 1 "H"]).
  constructor; [| constructor; [| constructor]]; unfold elems; cbn [In].
  - do 7 right. left. reflexivity.
  - left. reflexivity.
Defined.

(** X5: to_atom_numbers returns exactly when every identifier is known to
    the table; otherwise it raises KeyError with the first identifier
    that is not, whatever follows it. *)
Theorem to_atom_numbers_raises_first_unknown (l : list ident) :
  returns (to_atom_numbers l) = forallb known l /\
  match to_atom_numbers l with
  | Ok _ => True
  | Raise x =>
      exists before a after,
        l = (before ++ a :: after)%list /\ x = KeyError a /\
        known a = false /\ forallb known before = true
  end.
Proof.
  induction l as [| a l [IHr IHx]]; [split; [reflexivity | exact I] |].
  rewrite to_atom_numbers_cons. cbn [forallb].
  destruct (find a) as [e | x] eqn:He; cbn [rbind].
  - assert (Ha : known a = true).
    { unfold known. pose proof (find_cases a) as Hc.
      destruct (existsb (matches a) elems); [reflexivity |].
      rewrite He in Hc. discriminate. }
    rewrite Ha. cbn [andb].
    destruct (to_atom_numbers l) as [ns | x]; cbn [rbind returns] in *.
    + split; [exact IHr | exact I].
    + split; [exact IHr |].
      destruct IHx as (before & b & after & Hl & Hx & Hb & Hbefore).
      exists (a :: before), b, after. subst l.
      cbn [forallb]. rewrite Ha, Hbefore. auto.
  - apply find_raises in He. destruct He as [Hx Ha]. rewrite Ha.
    split; [reflexivity |].
    exists [], a, l. auto.
Qed.

(** ** distribute_electrons, once more *)

Lemma distribute_electrons_split (n m a b : Z) :
  distribute_electrons n m = Ok (a, b) ->
  a + b = n /\ a - b = m - 1 /\ b >= 0 /\ m >= 1.
Proof.
  intros H. apply distribute_electrons_returns in H.
  destruct H as (Ha & Hb & Hm & Hn & Hp & Hs).
  pose proof (split_sum n m) as Hsum.
  pose proof (split_difference n m Hp) as Hdiff.
  pose proof (split_beta_nonneg n m Hp Hs) as Hbeta.
  subst a b. repeat split; lia.
Qed.

Lemma distribute_electrons_of_split (n m a b : Z) :
  a + b = n -> a - b = m - 1 -> b >= 0 -> m >= 1 ->
  distribute_electrons n m = Ok (a, b).
Proof.
  intros Hsum Hdiff Hbeta Hm.
  pose proof (distribute_electrons_current (System.mk [] [] a b)) as H.
  unfold System.n_electrons, System.multiplicity in H.
  cbn [System.n_alpha System.n_beta] in H.
  replace (a + b) with n in H by lia.
  replace (a - b + 1) with m in H by lia.
  apply H; lia.
Qed.

(** X6: distribute_electrons(n_electrons, multiplicity) returns
    (n_alpha, n_beta) exactly when multiplicity >= 1, n_beta >= 0 and the
    pair adds up to n_electrons and differs by multiplicity - 1: it
    returns the one admissible split and refuses when there is none. *)
Theorem distribute_electrons_returns_iff (n_electrons multiplicity : Z)
    (n_alpha n_beta : Z) :
  distribute_electrons n_electrons multiplicity = Ok (n_alpha, n_beta)
  <->
  n_alpha + n_beta = n_electrons /\ n_alpha - n_beta = multiplicity - 1 /\
  n_beta >= 0 /\ multiplicity >= 1.
Proof.
  split.
  - apply distribute_electrons_split.
  - intros (Hsum & Hdiff & Hbeta & Hm).
    now apply distribute_electrons_of_split.
Qed.

(** ** adjust_electrons, once more *)

Lemma spec_redistribute_returns (n m : Z) (self self' : System.t) :
  spec_redistribute n m self = (Ok tt, self') ->
  distribute_electrons n m = Ok (System.n_alpha self', System.n_beta self') /\
  self' = with_electrons (System.n_alpha self') (System.n_beta self') self.
Proof.
  unfold spec_redistribute.
  destruct (distribute_electrons n m) as [[a b] | e]; [| discriminate].
  intros H. inversion H. cbn. auto.
Qed.

(** A returning call distributed its admissible target electron count
    with the multiplicity [used_multiplicity] names. *)
Lemma adjust_electrons_returns (charge multiplicity : option Z)
    (allow_multiplity_change : bool) (self self' : System.t) :
  System.adjust_electrons charge multiplicity allow_multiplity_change self
  = (Ok tt, self') ->
  target_admissible charge self = true /\
  distribute_electrons (spec_target_electrons charge self)
    (used_multiplicity charge multiplicity self)
  = Ok (System.n_alpha self', System.n_beta self') /\
  self' = with_electrons (System.n_alpha self') (System.n_beta self') self.
Proof.
  rewrite adjust_electrons_spec_adjust.
  unfold spec_adjust, target_admissible, used_multiplicity.
  set (target := spec_target_electrons charge self).
  assert (Hadm : (match charge with
                  | Some _ => target <? 0
                  | None => false
                  end) = false ->
                 (match charge with
                  | Some _ => 0 <=? target
                  | None => true
                  end) = true).
  { destruct charge; [| reflexivity].
    intros H. apply Z.ltb_ge in H. now apply Z.leb_le. }
  destruct (match charge with
            | Some _ => target <? 0
            | None => false
            end); [discriminate |].
  specialize (Hadm eq_refl).
  destruct multiplicity as [m |].
  - intros H. apply spec_redistribute_returns in H. tauto.
  - destruct (returns (distribute_electrons target (System.multiplicity self))).
    + intros H. apply spec_redistribute_returns in H. tauto.
    + destruct allow_multiplity_change; [| discriminate].
      intros H. apply spec_redistribute_returns in H. tauto.
Qed.

(** X7: when adjust_electrons returns from a call with a charge, the
    system has that charge, which is at most the total nuclear charge;
    when it returns from a call without a charge, electron count and
    charge are what they were. *)
Theorem adjust_electrons_charge (charge multiplicity : option Z)
    (allow_multiplity_change : bool) (self self' : System.t) :
  System.adjust_electrons charge multiplicity allow_multiplity_change self
  = (Ok tt, self') ->
  match charge with
  | Some c =>
      System.charge self' = c /\ c <= sum (System.atom_numbers self)
  | None =>
      System.n_electrons self' = System.n_electrons self /\
      System.charge self' = System.charge self
  end.
Proof.
  intros H. apply adjust_electrons_returns in H.
  destruct H as (Hadm & Hd & Hself).
  apply distribute_electrons_split in Hd.
  unfold System.charge, System.total_charge, System.n_electrons.
  rewrite Hself. cbn [System.atom_numbers System.n_alpha System.n_beta
                      with_electrons].
  destruct charge as [c |]; cbn [spec_target_electrons target_admissible] in *.
  - apply Z.leb_le in Hadm. lia.
  - unfold System.n_electrons in Hd. lia.
Qed.

Lemma adjust_electrons_charge_witness :
  System.charge (System.mk [8] [[0; 0; 0]] 4 3) = 1 /\ 1 <= sum [8].
Proof.
  apply (adjust_electrons_charge (Some 1) None true
           (System.mk [8] [[0; 0; 0]] 4 4) (System.mk [8] [[0; 0; 0]] 4 3)).
  reflexivity.
Defined.

(** X8: when adjust_electrons returns, the system has the multiplicity
    asked for; with the multiplicity omitted it keeps its multiplicity
    whenever distribute_electrons accepts that one for the target
    electron count, and otherwise has multiplicity 1 for an even and 2
    for an odd electron count. *)
Theorem adjust_electrons_multiplicity (charge multiplicity : option Z)
    (allow_multiplity_change : bool) (self self' : System.t) :
  System.adjust_electrons charge multiplicity allow_multiplity_change self
  = (Ok tt, self') ->
  match multiplicity with
  | Some m => System.multiplicity self' = m
  | None =>
      if returns (distribute_electrons (spec_target_electrons charge self)
                    (System.multiplicity self))
      then System.multiplicity self' = System.multiplicity self
      else System.multiplicity self'
           = (if Z.even (System.n_electrons self') then 1 else 2)
  end.
Proof.
  intros H. apply adjust_electrons_returns in H.
  destruct H as (_ & Hd & _).
  apply distribute_electrons_split in Hd.
  destruct Hd as (Hsum & Hdiff & _ & _).
  unfold used_multiplicity in Hdiff.
  destruct multiplicity as [m |].
  - unfold System.multiplicity. lia.
  - destruct (returns (distribute_electrons (spec_target_electrons charge self)
                         (System.multiplicity self))).
    + unfold System.multiplicity in *. lia.
    + unfold System.n_electrons. rewrite Hsum.
      unfold spec_default_multiplicity in Hdiff.
      unfold System.multiplicity. lia.
Qed.

Lemma adjust_electrons_multiplicity_witness :
  System.multiplicity (System.mk [8] [[0; 0; 0]] 5 3) = 3.
Proof.
  apply (adjust_electrons_multiplicity None (Some 3) true
           (System.mk [8] [[0; 0; 0]] 4 4) (System.mk [8] [[0; 0; 0]] 5 3)).
  reflexivity.
Defined.

Lemma with_electrons_same (self : System.t) :
  with_electrons (System.n_alpha self) (System.n_beta self) self = self.
Proof. destruct self. reflexivity. Qed.

(** X9: adjust_electrons is idempotent. After a call that returned, the
    same call returns again and leaves the system as the first call left
    it. *)
Theorem adjust_electrons_idempotent (charge multiplicity : option Z)
    (allow_multiplity_change : bool) (self self' : System.t) :
  System.adjust_electrons charge multiplicity allow_multiplity_change self
  = (Ok tt, self') ->
  System.adjust_electrons charge multiplicity allow_multiplity_change self'
  = (Ok tt, self').
Proof.
  intros H. apply adjust_electrons_returns in H.
  destruct H as (Hadm & Hd & Hself).
  pose proof (distribute_electrons_split _ _ _ _ Hd)
    as (Hsum & Hdiff & Hbeta & Hm).
  assert (Htarget : spec_target_electrons charge self'
                    = spec_target_electrons charge self).
  { destruct charge as [c |]; cbn [spec_target_electrons].
    - rewrite Hself. reflexivity.
    - cbn [spec_target_electrons] in Hsum. exact Hsum. }
  assert (Hcurrent : distribute_electrons (spec_target_electrons charge self)
                       (System.multiplicity self')
                     = Ok (System.n_alpha self', System.n_beta self')).
  { apply distribute_electrons_of_split; unfold System.multiplicity; lia. }
  rewrite adjust_electrons_spec_adjust. unfold spec_adjust.
  rewrite Htarget.
  replace (match charge with
           | Some _ => spec_target_electrons charge self <? 0
           | None => false
           end) with false.
  2: { destruct charge; [| reflexivity].
       cbn [target_admissible] in Hadm. apply Z.leb_le in Hadm.
       symmetry. now apply Z.ltb_ge. }
  destruct multiplicity as [m |].
  - cbn [used_multiplicity] in Hd.
    unfold spec_redistribute. rewrite Hd.
    now rewrite with_electrons_same.
  - rewrite Hcurrent. cbn [returns].
    unfold spec_redistribute. rewrite Hcurrent.
    now rewrite with_electrons_same.
Qed.

Lemma adjust_electrons_idempotent_witness :
  System.adjust_electrons (Some 1) None true (System.mk [8] [[0; 0; 0]] 4 3)
  = (Ok tt, System.mk [8] [[0; 0; 0]] 4 3).
Proof.
  apply (adjust_electrons_idempotent (Some 1) None true
           (System.mk [8] [[0; 0; 0]] 4 4)).
  reflexivity.
Defined.

(** X10: whatever adjust_electrons raises is a ValueError: neither
    assertion of distribute_electrons can fail inside it. *)
Theorem adjust_electrons_raises_ValueError (charge multiplicity : option Z)
    (allow_multiplity_change : bool) (self self' : System.t) (e : exn) :
  System.adjust_electrons charge multiplicity allow_multiplity_change self
  = (Raise e, self') ->
  is_ValueError e = true.
Proof.
  rewrite adjust_electrons_spec_adjust. unfold spec_adjust.
  assert (Hre : forall n m,
            spec_redistribute n m self = (Raise e, self') ->
            is_ValueError e = true).
  { intros n m. unfold spec_redistribute.
    destruct (distribute_electrons n m) as [[a b] | x] eqn:Hd;
      [discriminate |].
    intros H. inversion H. subst x.
    now apply (distribute_electrons_raises_ValueError n m). }
  destruct (match charge with
            | Some _ => spec_target_electrons charge self <? 0
            | None => false
            end).
  - intros H. inversion H. reflexivity.
  - destruct multiplicity as [m |]; [apply Hre |].
    destruct (returns _); [apply Hre |].
    destruct allow_multiplity_change; [apply Hre |].
    intros H. inversion H. reflexivity.
Qed.

Lemma adjust_electrons_raises_ValueError_witness :
  is_ValueError (ValueError (msg_parity 8 2)) = true.
Proof.
  apply (adjust_electrons_raises_ValueError None (Some 2) true
           (System.mk [8] [[0; 0; 0]] 4 4) (System.mk [8] [[0; 0; 0]] 4 4)).
  reflexivity.
Defined.

(** X11: on a system with n_alpha >= n_beta >= 0, adjust_electrons called
    with the system's own charge, its own multiplicity, or both, returns
    and changes nothing. *)
Theorem adjust_electrons_own_values (allow_multiplity_change : bool)
    (self : System.t) (charge multiplicity : option Z) :
  System.n_alpha self >= System.n_beta self -> System.n_beta self >= 0 ->
  charge = None \/ charge = Some (System.charge self) ->
  multiplicity = None \/ multiplicity = Some (System.multiplicity self) ->
  System.adjust_electrons charge multiplicity allow_multiplity_change self
  = (Ok tt, self).
Proof.
  intros Hab Hb Hcharge Hmult.
  pose proof (distribute_electrons_current self Hab Hb) as Hcurrent.
  assert (Htarget : spec_target_electrons charge self
                    = System.n_electrons self).
  { destruct Hcharge as [-> | ->]; cbn [spec_target_electrons];
      [reflexivity |].
    unfold System.charge, System.total_charge. lia. }
  rewrite adjust_electrons_spec_adjust. unfold spec_adjust.
  rewrite Htarget.
  replace (match charge with
           | Some _ => System.n_electrons self <? 0
           | None => false
           end) with false.
  2: { destruct charge; [| reflexivity].
       symmetry. apply Z.ltb_ge. unfold System.n_electrons. lia. }
  assert (Hre : spec_redistribute (System.n_electrons self)
                  (System.multiplicity self) self = (Ok tt, self)).
  { unfold spec_redistribute. rewrite Hcurrent.
    now rewrite with_electrons_same. }
  destruct Hmult as [-> | ->]; [| exact Hre].
  rewrite Hcurrent. cbn [returns]. exact Hre.
Qed.

Lemma adjust_electrons_own_values_witness :
  System.adjust_electrons (Some (-1)) (Some 2) false
    (System.mk [8] [[0; 0; 0]] 5 4)
  = (Ok tt, System.mk [8] [[0; 0; 0]] 5 4).
Proof.
  apply (adjust_electrons_own_values false (System.mk [8] [[0; 0; 0]] 5 4)
           (Some (-1)) (Some 2)).
  - cbn. lia.
  - cbn. lia.
  - right. reflexivity.
  - right. reflexivity.
Defined.

(** ** Construction, once more *)

Lemma to_atom_numbers_range (l : list ident) (nums : list Z) :
  to_atom_numbers l = Ok nums -> Forall (fun n => 1 <= n <= 20) nums.
Proof.
  revert nums. induction l as [| a l IH]; intros nums H.
  - inversion H. constructor.
  - rewrite to_atom_numbers_cons in H.
    destruct (find a) as [e | x] eqn:He; cbn [rbind] in H; [| discriminate].
    destruct (to_atom_numbers l) as [ns | x]; cbn [rbind] in H;
      [| discriminate].
    inversion H. apply find_returns in He. destruct He as [Hin _].
    pose proof elems_range as Hr. rewrite Forall_forall in Hr.
    constructor; [now apply Hr | now apply IH].
Qed.

Lemma to_atom_numbers_raises_KeyError (l : list ident) (x : exn) :
  to_atom_numbers l = Raise x ->
  exists a, In a l /\ x = KeyError a /\ known a = false.
Proof.
  induction l as [| a l IH]; [discriminate |].
  rewrite to_atom_numbers_cons.
  destruct (find a) as [e | y] eqn:He; cbn [rbind].
  - destruct (to_atom_numbers l) as [ns | y]; cbn [rbind]; [discriminate |].
    intros H. inversion H. subst y.
    destruct (IH eq_refl) as (b & Hin & Hb). exists b.
    split; [now right | exact Hb].
  - intros H. inversion H. subst y. apply find_raises in He.
    exists a. split; [now left | exact He].
Qed.

Lemma sum_range (nums : list Z) :
  Forall (fun n => 1 <= n <= 20) nums ->
  Z.of_nat (length nums) <= sum nums <= 20 * Z.of_nat (length nums).
Proof.
  induction 1 as [| n nums Hn Hnums IH]; [cbn; lia |].
  change (sum (n :: nums)) with (n + sum nums).
  cbn [length]. lia.
Qed.

Lemma half_split_closed_shell (total : Z) :
  (total - total / 2 =? total / 2) = Z.even total.
Proof.
  rewrite Zeven_mod.
  destruct (Z.eqb_spec (total mod 2) 0) as [He | Ho].
  - apply Z.eqb_eq. Z.div_mod_to_equations. lia.
  - apply Z.eqb_neq. Z.div_mod_to_equations. lia.
Qed.

Lemma assign_electrons_fields (nums : list Z) (cs : list (list Z))
    (electrons : electrons_arg) (self : System.t) :
  System.assign_electrons nums cs electrons = Ok self ->
  System.atom_numbers self = nums /\ System.coords self = cs.
Proof.
  unfold System.assign_electrons.
  destruct electrons as [| n | s |]; cbn [rbind].
  - unfold assert. destruct (_ || _); cbn [rbind]; [| discriminate].
    intros H. inversion H. auto.
  - unfold assert. destruct (_ || _); cbn [rbind]; [| discriminate].
    intros H. inversion H. auto.
  - destruct (unpack2 s) as [[a b] | x]; cbn [rbind]; [| discriminate].
    destruct (a <? b); [discriminate |].
    intros H. inversion H. auto.
  - discriminate.
Qed.

(** The statements of [__init__] before the electron assignment do not
    look at [electrons]. *)
Lemma init_structure (atoms : atoms_arg) (coords : list (list Z))
    (electrons electrons' : electrons_arg) (self : System.t) :
  System.__init__ atoms coords electrons = Ok self ->
  System.__init__ atoms coords electrons'
  = System.assign_electrons (System.atom_numbers self) (System.coords self)
      electrons'.
Proof.
  unfold System.__init__.
  destruct (System.normalise_atoms atoms) as [l | x]; cbn [rbind];
    [| discriminate].
  destruct (System.default_coords l coords) as [cs | x]; cbn [rbind];
    [| discriminate].
  destruct (negb (length l =? length cs)%nat); [discriminate |].
  destruct (to_atom_numbers l) as [nums | x]; cbn [rbind]; [| discriminate].
  destruct (System.check_shape cs) as [r | x]; cbn [rbind]; [| discriminate].
  intros H. apply assign_electrons_fields in H.
  destruct H as [-> ->]. reflexivity.
Qed.

(** X12: a construction without electrons that returns keeps the whole
    invariant n_alpha >= n_beta >= 0, has between one and twenty
    electrons per atom, and is closed shell exactly when that number is
    even. *)
Theorem init_default_invariant (atoms : atoms_arg) (coords : list (list Z))
    (self : System.t) :
  System.__init__ atoms coords ElectronsNone = Ok self ->
  System.n_alpha self >= System.n_beta self /\ System.n_beta self >= 0 /\
  Z.of_nat (System.n_atoms self) <= System.n_electrons self
    <= 20 * Z.of_nat (System.n_atoms self) /\
  System.is_closed_shell self = Z.even (System.n_electrons self).
Proof.
  intros H. apply init_returns_seq in H. destruct H as [l Hl].
  destruct (init_seq_returns l coords _ self Hl) as (Hnums & _ & _ & _ & Hb & Ha).
  apply to_atom_numbers_range in Hnums. apply sum_range in Hnums.
  unfold System.n_atoms, System.n_electrons, System.is_closed_shell.
  rewrite Ha, Hb.
  set (total := sum (System.atom_numbers self)) in *.
  replace (total - total / 2 + total / 2) with total by lia.
  rewrite half_split_closed_shell.
  repeat split; try lia; Z.div_mod_to_equations; lia.
Qed.

Lemma init_default_invariant_witness :
  let water := System.mk [8; 1; 1] [[0; 0; 0]; [0; 0; 1]; [0; 1; 0]] 5 5 in
  System.n_alpha water >= System.n_beta water /\ System.n_beta water >= 0 /\
  Z.of_nat (System.n_atoms water) <= System.n_electrons water
    <= 20 * Z.of_nat (System.n_atoms water) /\
  System.is_closed_shell water = Z.even (System.n_electrons water).
Proof.
  apply (init_default_invariant (AtomsSeq [IdStr "O"; IdStr "H"; IdInt 1])
           [[0; 0; 0]; [0; 0; 1]; [0; 1; 0]]).
  reflexivity.
Defined.

(** X13: a construction from an integer electron count that returns has
    that many electrons, the extra electron of an odd count in n_alpha,
    multiplicity 1 or 2 by the parity of the count, and the nuclear
    charge minus the count as charge; n_beta is negative exactly when
    the count is. *)
Theorem init_int_electrons (atoms : atoms_arg) (coords : list (list Z))
    (n : Z) (self : System.t) :
  System.__init__ atoms coords (ElectronsInt n) = Ok self ->
  System.n_electrons self = n /\
  System.n_alpha self - System.n_beta self = n mod 2 /\
  System.multiplicity self = n mod 2 + 1 /\
  System.is_closed_shell self = Z.even n /\
  System.charge self = sum (System.atom_numbers self) - n /\
  (System.n_beta self < 0 <-> n < 0).
Proof.
  intros H. apply init_returns_seq in H. destruct H as [l Hl].
  destruct (init_seq_returns l coords _ self Hl) as (_ & _ & _ & _ & Hb & Ha).
  unfold System.charge, System.total_charge, System.n_electrons,
    System.multiplicity, System.is_closed_shell.
  rewrite Ha, Hb. rewrite half_split_closed_shell.
  repeat split; try reflexivity; try (Z.div_mod_to_equations; lia).
Qed.

Lemma init_int_electrons_witness :
  let cation := System.mk [8] [[0; 0; 0]] 4 3 in
  System.n_electrons cation = 7 /\
  System.n_alpha cation - System.n_beta cation = 7 mod 2 /\
  System.multiplicity cation = 7 mod 2 + 1 /\
  System.is_closed_shell cation = Z.even 7 /\
  System.charge cation = sum (System.atom_numbers cation) - 7 /\
  (System.n_beta cation < 0 <-> 7 < 0).
Proof.
  apply (init_int_electrons (AtomsScalar (IdStr "O")) []).
  reflexivity.
Defined.

(** X14: the electrons argument only decides the electron counts. If a
    construction returns for some electrons, the construction from the
    same atoms and coordinates and a pair (n_alpha, n_beta) with
    n_alpha >= n_beta returns the same atoms and coordinates with exactly
    these two counts. *)
Theorem init_pair_electrons (atoms : atoms_arg) (coords : list (list Z))
    (electrons : electrons_arg) (self : System.t) (n_alpha n_beta : Z) :
  System.__init__ atoms coords electrons = Ok self ->
  n_alpha >= n_beta ->
  System.__init__ atoms coords (ElectronsSeq [n_alpha; n_beta])
  = Ok (with_electrons n_alpha n_beta self).
Proof.
  intros H Hge.
  rewrite (init_structure atoms coords electrons _ self H).
  unfold System.assign_electrons. cbn [unpack2 rbind].
  destruct (Z.ltb_spec n_alpha n_beta) as [Hlt | _]; [lia | reflexivity].
Qed.

Lemma init_pair_electrons_witness :
  System.__init__ (AtomsSeq [IdStr "O"]) [] (ElectronsSeq [5; 3])
  = Ok (with_electrons 5 3 (System.mk [8] [[0; 0; 0]] 4 4)).
Proof.
  apply (init_pair_electrons (AtomsSeq [IdStr "O"]) [] ElectronsNone);
    [reflexivity | lia].
Defined.

(** X15: when the numbers of atoms and coordinates agree (or one atom
    comes without coordinates) and an atom is not in the table, the
    construction raises what to_atom_numbers raises, the KeyError of that
    atom, whatever the coordinates and the electrons are. *)
Theorem init_unknown_atom (l : list ident) (coords : list (list Z))
    (electrons : electrons_arg) (x : exn) :
  to_atom_numbers l = Raise x ->
  length l = length coords \/ (length l = 1%nat /\ coords = []) ->
  System.__init__ (AtomsSeq l) coords electrons = Raise x /\
  exists a, In a l /\ x = KeyError a.
Proof.
  intros Hx Hlen. split.
  - assert (Hcs : exists cs, System.default_coords l coords = Ok cs /\
                             length l = length cs).
    { unfold System.default_coords.
      destruct Hlen as [Hlen | [Hone ->]].
      - exists coords. split; [| exact Hlen].
        rewrite <- Hlen.
        destruct l as [| a l']; [reflexivity |].
        cbn [length Nat.eqb]. now rewrite andb_false_r.
      - exists [[0; 0; 0]]. rewrite Hone. split; reflexivity. }
    destruct Hcs as (cs & Hcs & Hl).
    unfold System.__init__. cbn [System.normalise_atoms rbind].
    rewrite Hcs. cbn [rbind]. rewrite Hl, Nat.eqb_refl. cbn [negb].
    rewrite Hx. reflexivity.
  - destruct (to_atom_numbers_raises_KeyError l x Hx) as (a & Hin & Ha & _).
    now exists a.
Qed.

Lemma init_unknown_atom_witness :
  System.__init__ (AtomsSeq [IdStr "H"; IdStr "Xx"]) [[0; 0; 0]; [1; 2]]
    (ElectronsInt 3)
  = Raise (KeyError (IdStr "Xx")) /\
  exists a, In a [IdStr "H"; IdStr "Xx"] /\ KeyError (IdStr "Xx") = KeyError a.
Proof.
  apply (init_unknown_atom [IdStr "H"; IdStr "Xx"] [[0; 0; 0]; [1; 2]]
           (ElectronsInt 3) (KeyError (IdStr "Xx"))).
  - reflexivity.
  - left. reflexivity.
Defined.

(** X16: constructor and distribute_electrons agree. A construction from
    an integer electron count n >= 0 stores the split that
    distribute_electrons returns for n and the default multiplicity
    (1 for even n, 2 for odd n), the one adjust_electrons falls back
    to. *)
Theorem init_int_default_distribution (atoms : atoms_arg)
    (coords : list (list Z)) (n : Z) (self : System.t) :
  n >= 0 ->
  System.__init__ atoms coords (ElectronsInt n) = Ok self ->
  distribute_electrons n (if n mod 2 =? 0 then 1 else 2)
  = Ok (System.n_alpha self, System.n_beta self).
Proof.
  intros Hn H. apply init_returns_seq in H. destruct H as [l Hl].
  destruct (init_seq_returns l coords _ self Hl) as (_ & _ & _ & _ & Hb & Ha).
  rewrite Ha, Hb.
  apply distribute_electrons_of_split.
  - lia.
  - destruct (Z.eqb_spec (n mod 2) 0) as [He | Ho];
      Z.div_mod_to_equations; lia.
  - Z.div_mod_to_equations. lia.
  - destruct (n mod 2 =? 0); lia.
Qed.

Lemma init_int_default_distribution_witness :
  distribute_electrons 7 (if 7 mod 2 =? 0 then 1 else 2)
  = Ok (System.n_alpha (System.mk [8] [[0; 0; 0]] 4 3),
        System.n_beta (System.mk [8] [[0; 0; 0]] 4 3)).
Proof.
  apply (init_int_default_distribution (AtomsSeq [IdInt 8]) [] 7);
    [lia | reflexivity].
Defined.

Lemma assign_electrons_no_AssertionError (nums : list Z)
    (cs : list (list Z)) (electrons : electrons_arg) :
  System.assign_electrons nums cs electrons <> Raise AssertionError.
Proof.
  unfold System.assign_electrons.
  destruct electrons as [| n | s |]; cbn [rbind].
  - unfold System.multiplicity. cbn [System.n_alpha System.n_beta].
    rewrite default_split_multiplicity. discriminate.
  - unfold System.multiplicity. cbn [System.n_alpha System.n_beta].
    rewrite default_split_multiplicity. discriminate.
  - destruct s as [| a [| b [| c s]]]; cbn [unpack2 rbind]; try discriminate.
    destruct (a <? b); discriminate.
  - discriminate.
Qed.

Lemma check_shape_no_AssertionError (cs : list (list Z)) :
  System.check_shape cs <> Raise AssertionError.
Proof.
  unfold System.check_shape, index1.
  destruct (0 <? length cs)%nat; [| discriminate].
  destruct (nth_error (shape cs) 1) as [k |]; cbn [rbind]; [| discriminate].
  destruct (negb (k =? 3)%nat); discriminate.
Qed.

Lemma init_seq_no_AssertionError (l : list ident) (coords : list (list Z))
    (electrons : electrons_arg) :
  System.__init__ (AtomsSeq l) coords electrons <> Raise AssertionError.
Proof.
  unfold System.__init__. cbn [System.normalise_atoms rbind].
  destruct (System.default_coords l coords) as [cs | x] eqn:Hcs;
    cbn [rbind].
  - destruct (negb (length l =? length cs)%nat); [discriminate |].
    destruct (to_atom_numbers l) as [nums | x] eqn:Hnums; cbn [rbind].
    + pose proof (check_shape_no_AssertionError cs) as Hshape.
      destruct (System.check_shape cs) as [r | x]; cbn [rbind].
      * apply assign_electrons_no_AssertionError.
      * congruence.
    + apply to_atom_numbers_raises_KeyError in Hnums.
      destruct Hnums as (a & _ & -> & _). discriminate.
  - unfold System.default_coords in Hcs.
    destruct ((0 <? length l)%nat && (length coords =? 0)%nat);
      [| discriminate].
    destruct (length l =? 1)%nat; [discriminate |].
    inversion Hcs. discriminate.
Qed.

(** X17: the assertion that ends __init__ never fails: the constructor
    raises TypeError, ValueError, KeyError or the IndexError of a
    coordinate array without a second axis, never AssertionError. *)
Theorem init_no_AssertionError (atoms : atoms_arg) (coords : list (list Z))
    (electrons : electrons_arg) :
  System.__init__ atoms coords electrons <> Raise AssertionError.
Proof.
  destruct atoms as [a | l |].
  - rewrite init_scalar. apply init_seq_no_AssertionError.
  - apply init_seq_no_AssertionError.
  - discriminate.
Qed.

(** ** When adjust_electrons returns *)

Lemma spec_redistribute_returns_iff (n m : Z) (self : System.t) :
  returns (fst (spec_redistribute n m self))
  = returns (distribute_electrons n m).
Proof.
  unfold spec_redistribute.
  destruct (distribute_electrons n m) as [[a b] | x]; reflexivity.
Qed.

Lemma distribute_electrons_negative (n m : Z) :
  n < 0 -> returns (distribute_electrons n m) = false.
Proof.
  intros Hn. distribute_cases n m H; rewrite H; trivial; lia.
Qed.

(** X18: adjust_electrons returns exactly when distribute_electrons
    accepts the target electron count with the multiplicity asked for;
    with the multiplicity omitted it returns for every target electron
    count >= 0 when allow_multiplity_change is true, and exactly when the
    current multiplicity is accepted when it is false. *)
Theorem adjust_electrons_returns_iff (charge multiplicity : option Z)
    (allow_multiplity_change : bool) (self : System.t) :
  let target := spec_target_electrons charge self in
  returns (fst (System.adjust_electrons charge multiplicity
                  allow_multiplity_change self)) = true
  <->
  match multiplicity with
  | Some m => returns (distribute_electrons target m) = true
  | None =>
      if allow_multiplity_change then target >= 0
      else returns (distribute_electrons target (System.multiplicity self))
           = true
  end.
Proof.
  intros target.
  rewrite adjust_electrons_spec_adjust. unfold spec_adjust. fold target.
  pose proof (distribute_electrons_negative target) as Hneg.
  destruct (Z.ltb_spec target 0) as [Hlt | Hge].
  - (* a negative target: nothing returns *)
    assert (Hfalse : forall m,
              returns (fst (spec_redistribute target m self)) = false).
    { intros m. rewrite spec_redistribute_returns_iff. now apply Hneg. }
    assert (Hcall : returns (fst (
              if match charge with
                 | Some _ => true
                 | None => false
                 end
              then (Raise (ValueError System.msg_charge_too_positive), self)
              else
                match multiplicity with
                | Some m => spec_redistribute target m self
                | None =>
                    if returns (distribute_electrons target
                                  (System.multiplicity self))
                    then spec_redistribute target
                           (System.multiplicity self) self
                    else if allow_multiplity_change
                    then spec_redistribute target
                           (spec_default_multiplicity target) self
                    else (Raise (ValueError System.msg_multiplicity_change),
                          self)
                end)) = false).
    { destruct charge; [reflexivity |].
      destruct multiplicity as [m |]; [apply Hfalse |].
      rewrite (Hneg _ Hlt).
      destruct allow_multiplity_change; [apply Hfalse | reflexivity]. }
    rewrite Hcall.
    destruct multiplicity as [m |];
      [rewrite (Hneg m Hlt)
      | destruct allow_multiplity_change; [| rewrite (Hneg _ Hlt)]];
      split; intros; try discriminate; lia.
  - replace (match charge with
             | Some _ => false
             | None => false
             end) with false by (destruct charge; reflexivity).
    destruct multiplicity as [m |].
    + rewrite spec_redistribute_returns_iff. reflexivity.
    + destruct (returns (distribute_electrons target
                           (System.multiplicity self))) eqn:Hcurrent.
      * rewrite spec_redistribute_returns_iff, Hcurrent.
        destruct allow_multiplity_change; split; intros; trivial; lia.
      * destruct allow_multiplity_change.
        -- rewrite spec_redistribute_returns_iff.
           rewrite <- default_multiplicity_even.
           rewrite distribute_electrons_default by lia.
           split; intros; trivial; lia.
        -- cbn [fst returns]. reflexivity.
Qed.
